(** * Boghche: the order panel and the authentication API

    A shallow embedding of
    - [fardel/apps/ecommerce/order/panel.py] (the staff order panel) and
    - [web/core/auth/views.py] (the JSON authentication API), with the
      two JWT settings of [web/config.py],
    over an explicit relational store.  Every handler is a function from
    the store and the request to the new store and the response; a
    handler that raises leaves the store as it was, since nothing is
    committed. *)

From stdpp Require Import gmap strings list fin_maps sorting.
From Stdlib Require Import ZArith.

Local Open Scope Z_scope.
Set Warnings "-register-all".

(** ** Python values carried by a JSON body *)

(** What [request.get_json()] can hold.  Numbers are the integers; a
    float in a body is outside the model. *)
Inductive json :=
| JNull
| JBool (b : bool)
| JNum (n : Z)
| JStr (s : string)
| JArr (items : list json)
| JObj (members : list (string * json)).

Fixpoint json_eq_dec (a b : json) {struct a} : {a = b} + {a <> b}.
Proof.
  decide equality.
  - apply bool_eq_dec.
  - apply Z.eq_dec.
  - apply String.string_dec.
  - apply (List.list_eq_dec json_eq_dec).
  - apply List.list_eq_dec. decide equality. apply String.string_dec.
Defined.

#[global] Instance json_eq : EqDecision json := json_eq_dec.

(** Python truth value: [None], [False], [0], the empty string, the empty
    list and the empty dict are falsy. *)
Definition truthy (v : json) : bool :=
  match v with
  | JNull => false
  | JBool b => b
  | JNum n => negb (n =? 0)
  | JStr s => negb (bool_decide (s = ""))
  | JArr items => negb (bool_decide (items = []))
  | JObj members => negb (bool_decide (members = []))
  end.

(** A JSON object body is a Python dict with string keys. *)
Abbreviation dict := (gmap string json).

(** [data.get(key)]: [None] when the key is absent. *)
Definition dict_get (data : dict) (key : string) : json :=
  default JNull (data !! key).

(** ** The relational store *)

(** A row of the user table without its primary key.  The handlers
    store whatever value the body holds, so the three text columns carry
    a [json]; [password_hash] is what the model keeps of a password;
    [is_admin], [is_staff] and [group] are the columns the Access object
    of the module docstring reads.  Constraints the database may put on
    the columns are not part of the model. *)
Record User := mkUser {
  email : json;
  first_name : json;
  last_name : json;
  password_hash : string;
  is_admin : bool;
  is_staff : bool;
  group : json
}.

Record Order := mkOrder {
  user_id : Z;
  status : string;
  create_time : Z
}.

(** Tables are finite maps from the primary key [id] to the row; the
    revoked-token table is the list of its [jti] column, oldest first. *)
Record Db := mkDb {
  users : gmap Z User;
  orders : gmap Z Order;
  revoked_tokens : list string
}.

Definition set_users (db : Db) (us : gmap Z User) : Db :=
  mkDb us (orders db) (revoked_tokens db).

Definition set_orders (db : Db) (os : gmap Z Order) : Db :=
  mkDb (users db) os (revoked_tokens db).

#[global] Instance User_eq : EqDecision User.
Proof. solve_decision. Defined.

#[global] Instance Order_eq : EqDecision Order.
Proof. solve_decision. Defined.

(** [User.query.filter_by(email=e)]: the matching rows with their keys. *)
Definition filter_by_email (e : json) (db : Db) : list (Z * User) :=
  filter (λ row, email row.2 = e) (map_to_list (users db)).

(** [.first()] *)
Definition first {A} (rows : list A) : option A := head rows.

(** The truth value of what [.first()] gives: a row is truthy, [None]
    is not. *)
Definition is_found {A} (row : option A) : bool :=
  match row with
  | Some _ => true
  | None => false
  end.

(** [.scalar()]: no row gives [None], one row gives it, several raise
    [MultipleResultsFound]. *)
Inductive scalar_result (A : Type) :=
| ScalarNone
| ScalarOne (row : A)
| ScalarMultiple.
Arguments ScalarNone {A}.
Arguments ScalarOne {A} row.
Arguments ScalarMultiple {A}.

Definition scalar {A} (rows : list A) : scalar_result A :=
  match rows with
  | [] => ScalarNone
  | [row] => ScalarOne row
  | _ => ScalarMultiple
  end.

(** [db.session.add(u); db.session.commit()] for a new user: the
    database gives the row a primary key that is not in use. *)
Definition add_user (u : User) (db : Db) : Db :=
  set_users db (<[fresh (dom (users db)) := u]> (users db)).

(** ** Responses *)

Inductive context :=
| OrdersContext (orders : list (Z * Order))
| OrderInfoContext (order : Z * Order) (user : Z * User).

(** What a handler hands back to the framework: a JSON body with its
    status code, a rendered template, a redirect to an endpoint, an
    [abort(code)], or an uncaught Python exception. *)
Inductive response :=
| Json (body : list (string * json)) (status_code : Z)
| Render (template : string) (ctx : context)
| Redirect (endpoint : string)
| Abort (code : Z)
| Raise (exn : string).

Definition message (text : string) : list (string * json) :=
  [("message", JStr text)].

(** ** Settings of [web/config.py] read by the token layer *)

Inductive token_type := Access | Refresh.

#[global] Instance token_type_eq : EqDecision token_type.
Proof. solve_decision. Defined.

Definition JWT_BLACKLIST_ENABLED : bool := true.
Definition JWT_BLACKLIST_TOKEN_CHECKS : list token_type := [Access; Refresh].

(** ** Tokens and their verification *)

(** The claims [get_raw_jwt()] returns. *)
Record RawJwt := mkRawJwt {
  jti : string;
  identity : json;
  type : token_type
}.

(** How decoding the presented token ends, before any look at the store. *)
Inductive decoding :=
| Decodes
| ExpiredSignature
| InvalidToken (reason : string).

(** A token in the Authorization header of a request. *)
Record Bearer := mkBearer {
  raw_jwt : RawJwt;
  decode : decoding
}.

(** Modelled from the spec: [RevokedToken.is_jti_blacklisted], the
    blacklist callback of the token layer (its module, [models.py], is
    not among the sources).  A row for the [jti] in the revoked-token
    table invalidates the token. *)
Definition is_jti_blacklisted (j : string) (db : Db) : bool :=
  bool_decide (j ∈ revoked_tokens db).

(** Modelled from the spec: [RevokedToken.add], which records the
    identifier as revoked: the row is added and committed. *)
Definition RevokedToken_add (j : string) (db : Db) : Db :=
  mkDb (users db) (orders db) (revoked_tokens db ++ [j]).

(** Modelled from the spec: the user loader of the token layer, which
    turns the identity of a token (the email it was issued for) into
    [current_user]. *)
Definition user_loader (ident : json) (db : Db) : option (Z * User) :=
  first (filter_by_email ident db).

Definition only_allowed (expected : token_type) : string :=
  match expected with
  | Access => "Only access tokens are allowed"
  | Refresh => "Only refresh tokens are allowed"
  end.

(** Modelled from the spec: the token-verification layer behind
    [jwt_required] and [jwt_refresh_token_required], with the failures
    the docstring of [views.py] lists.  It decodes the token, checks its
    type, looks its [jti] up in the revoked-token table when the settings
    ask for it, and loads the user. *)
Definition verify_jwt_in_request (expected : token_type)
    (header : option Bearer) (db : Db) : response + RawJwt * (Z * User) :=
  match header with
  | None => inl (Json (message "Missing Authorization Header") 401)
  | Some bearer =>
      match decode bearer with
      | InvalidToken reason => inl (Json (message reason) 422)
      | ExpiredSignature => inl (Json (message "Token has expired") 401)
      | Decodes =>
          let raw := raw_jwt bearer in
          if negb (bool_decide (type raw = expected)) then
            inl (Json (message (only_allowed expected)) 422)
          else if JWT_BLACKLIST_ENABLED
                  && bool_decide (type raw ∈ JWT_BLACKLIST_TOKEN_CHECKS)
                  && is_jti_blacklisted (jti raw) db then
            inl (Json (message "Token has been revoked") 401)
          else
            match user_loader (identity raw) db with
            | None => inl (Json (message "Error loading the user") 401)
            | Some current_user => inr (raw, current_user)
            end
      end
  end.

Definition jwt_required := verify_jwt_in_request Access.
Definition jwt_refresh_token_required := verify_jwt_in_request Refresh.

(** ** What the handlers take from libraries *)

(** Password hashing (behind the [password] attribute and
    [check_password] of [User]) and token issuing, as functions of their
    arguments. *)
Class Crypto := {
  generate_password_hash : json → string;
  check_password_hash : string → json → bool;
  create_access_token : json → string;
  create_refresh_token : json → string
}.

(** ** [BaseResource] *)

(** Modelled from the spec: [BaseResource.check_data], which accepts a
    body that is a JSON object holding every required field. *)
Definition check_data (data : option dict) (fields : list string) : bool :=
  match data with
  | None => false
  | Some d => forallb (λ field, bool_decide (is_Some (d !! field))) fields
  end.

(** Modelled from the spec: [BaseResource.bad_request], the fixed
    response the handlers' docstrings give for a missing field. *)
Definition bad_request : response :=
  Json (message "Unvalid form submitted") 400.

(** ** Methods of [User] *)

(** Modelled from the spec: the constructor of [User] ([models.py] is not
    among the sources), [User(password=..., email=..., first_name=...,
    last_name=...)]: the password is stored hashed, the flags start
    off. *)
Definition new_User `{Crypto} (password email first_name last_name : json)
    : User :=
  mkUser email first_name last_name (generate_password_hash password)
         false false JNull.

Definition check_password `{Crypto} (u : User) (password : json) : bool :=
  check_password_hash (password_hash u) password.

(** [u.email], for where a local [email] hides the column. *)
Definition email_of (u : User) : json := email u.

(** Modelled from the spec: [User.dict], the User object with the keys
    the module docstring lists. *)
Definition User_dict (row : Z * User) : json :=
  JObj [("id", JNum row.1);
        ("first_name", first_name row.2);
        ("last_name", last_name row.2);
        ("email", email row.2)].

(** Modelled from the spec: [User.access_dict], the Access object for an
    administrator or staff member and [None] for anyone else. *)
Definition access_dict (u : User) : option json :=
  if is_admin u || is_staff u then
    Some (JObj [("group", group u);
                ("is_admin", JBool (is_admin u));
                ("is_staff", JBool (is_staff u))])
  else None.

(** [setattr(current_user, field, value)] for the four fields
    [ProfileApi.put] writes.  As in the constructor, the [password]
    attribute stores the hash. *)
Definition setattr `{Crypto} (u : User) (field : string) (value : json)
    : User :=
  if decide (field = "first_name") then
    mkUser (email u) value (last_name u) (password_hash u)
           (is_admin u) (is_staff u) (group u)
  else if decide (field = "last_name") then
    mkUser (email u) (first_name u) value (password_hash u)
           (is_admin u) (is_staff u) (group u)
  else if decide (field = "email") then
    mkUser value (first_name u) (last_name u) (password_hash u)
           (is_admin u) (is_staff u) (group u)
  else if decide (field = "password") then
    mkUser (email u) (first_name u) (last_name u)
           (generate_password_hash value)
           (is_admin u) (is_staff u) (group u)
  else u.

(** ** [web/core/auth/views.py] *)

Section views.
Context `{Crypto}.

Definition RegistrationApi_already_exists : response :=
  Json (message "A user with this email already exists.") 409.

Definition RegistrationApi_post (data : option dict) (db : Db)
    : Db * response :=
  if negb (check_data data ["password"; "email"]) then (db, bad_request)
  else
    match data with
    | None => (db, Raise "TypeError")
    | Some d =>
        match d !! "password", d !! "email" with
        | Some password, Some email =>
            let first_name := dict_get d "first_name" in
            let last_name := dict_get d "last_name" in
            if is_found (first (filter_by_email email db)) then
              (db, RegistrationApi_already_exists)
            else
              let u := new_User password email first_name last_name in
              let db := add_user u db in
              let access_token := create_access_token (email_of u) in
              let refresh_token := create_refresh_token (email_of u) in
              (db, Json [("message", JStr "Successfully registered");
                         ("access_token", JStr access_token);
                         ("refresh_token", JStr refresh_token)] 200)
        | _, _ => (db, Raise "KeyError")
        end
    end.

Definition LoginApi_post (data : option dict) (db : Db) : Db * response :=
  if negb (check_data data ["email"; "password"]) then (db, bad_request)
  else
    match data with
    | None => (db, Raise "TypeError")
    | Some d =>
        match d !! "password", d !! "email" with
        | Some password, Some email =>
            match scalar (filter_by_email email db) with
            | ScalarMultiple => (db, Raise "MultipleResultsFound")
            | ScalarOne (_, u) =>
                if check_password u password then
                  let access_token := create_access_token (email_of u) in
                  let refresh_token := create_refresh_token (email_of u) in
                  let obj := [("message", JStr "Successfully logined");
                              ("access_token", JStr access_token);
                              ("refresh_token", JStr refresh_token)] in
                  match access_dict u with
                  | Some access => (db, Json (obj ++ [("access", access)]) 200)
                  | None => (db, Json obj 200)
                  end
                else
                  (db, Json (message "Username or password is not correct") 401)
            | ScalarNone =>
                (db, Json (message "Username or password is not correct") 401)
            end
        | _, _ => (db, Raise "KeyError")
        end
    end.

Definition LogoutApi_post (raw : RawJwt) (db : Db) : Db * response :=
  let jti := jti raw in
  (RevokedToken_add jti db, Json (message "Access token has been revoked") 200).

Definition LogoutRefreshApi_post (raw : RawJwt) (db : Db) : Db * response :=
  let jti := jti raw in
  (RevokedToken_add jti db, Json (message "Refresh token has been revoked") 200).

Definition RefreshTokenApi_post (raw : RawJwt) (db : Db) : Db * response :=
  let current_user := identity raw in
  let access_token := create_access_token current_user in
  (db, Json [("access_token", JStr access_token)] 200).

Definition ProfileApi_get (current_user : Z * User) (db : Db)
    : Db * response :=
  (db, Json [("user", User_dict current_user)] 200).

(** The loop of [ProfileApi.put] over the keys of [fields], in the
    order the dict literal lists them.  Inside the test, [data[field]]
    is [data.get(field)]: a truthy value means the key is there. *)
Definition put_fields : list string :=
  ["first_name"; "last_name"; "email"; "password"].

Definition put_field (d : dict) (u : User) (field : string) : User :=
  if truthy (dict_get d field) then setattr u field (dict_get d field)
  else u.

(** The object the loop ends with. *)
Definition updated (d : dict) (u : User) : User :=
  foldl (put_field d) u put_fields.

(** [current_user] is the row of the store with key [current_user.1];
    the commit writes the changed object back to that row. *)
Definition ProfileApi_put (current_user : Z * User) (data : option dict)
    (db : Db) : Db * response :=
  match data with
  | None => (db, Raise "AttributeError")
  | Some d =>
      let u := updated d current_user.2 in
      let db := set_users db (<[current_user.1 := u]> (users db)) in
      (db, Json [("message", JStr "Profile successfully updated");
                 ("user", User_dict (current_user.1, u))] 200)
  end.

End views.

(** ** [fardel/apps/ecommerce/order/panel.py] *)

(** [request.args.get(name, default=..., type=int)]: the argument when it
    is there and reads as an integer, the default otherwise. *)
Definition args_get (arg : option Z) (default : Z) : Z :=
  match arg with
  | Some n => n
  | None => default
  end.

Definition create_time_asc (a b : Z * Order) : Prop :=
  create_time a.2 ≤ create_time b.2.

#[global] Instance create_time_asc_dec : RelDecision create_time_asc.
Proof. intros a b. unfold create_time_asc. apply _. Defined.

(** [Order.query.order_by(Order.create_time.asc())] *)
Definition orders_by_create_time (db : Db) : list (Z * Order) :=
  merge_sort create_time_asc (map_to_list (orders db)).

(** [math.ceil(count / per_page)]: [ZeroDivisionError] (here [None]) for
    a zero divisor, the ceiling of the quotient otherwise. *)
Definition page_count (count per_page : Z) : option Z :=
  if per_page =? 0 then None else Some (- ((- count) `div` per_page)).

(** [query.paginate(page=..., per_page=..., error_out=False).items]:
    with [error_out] off, a page below 1 is read as page 1 and a negative
    page size as 20. *)
Definition paginate_items (rows : list (Z * Order)) (page per_page : Z)
    : list (Z * Order) :=
  let page := if page <? 1 then 1 else page in
  let per_page := if per_page <? 0 then 20 else per_page in
  take (Z.to_nat per_page) (drop (Z.to_nat ((page - 1) * per_page)) rows).

Definition orders_list (page_arg per_page_arg : option Z) (db : Db)
    : Db * response :=
  let page := args_get page_arg 1 in
  let per_page := args_get per_page_arg 20 in
  let query := orders_by_create_time db in
  match page_count (Z.of_nat (length query)) per_page with
  | None => (db, Raise "ZeroDivisionError")
  | Some pages =>
      let orders := paginate_items query page per_page in
      (db, Render "order/orders_list.html" (OrdersContext orders))
  end.

(** The [print(order.lines)] of the detail view writes to the console
    and is left out. *)
Definition orders_info (order_id : Z) (db : Db) : Db * response :=
  match orders db !! order_id with
  | None => (db, Abort 404)
  | Some order =>
      match users db !! user_id order with
      | None => (db, Abort 404)
      | Some user =>
          (db, Render "order/orders_info.html"
                      (OrderInfoContext (order_id, order) (user_id order, user)))
      end
  end.

Definition confirm_order (order_id : Z) (db : Db) : Db * response :=
  match orders db !! order_id with
  | None => (db, Abort 404)
  | Some order =>
      let order :=
        if decide (status order = "Unfulfiled") then
          mkOrder (user_id order) "Fulfiled" (create_time order)
        else if decide (status order = "Fulfiled") then
          mkOrder (user_id order) "Unfulfiled" (create_time order)
        else order in
      (set_orders db (<[order_id := order]> (orders db)),
       Redirect "ecommerce_panel.orders_list")
  end.

Definition order_delete (order_id : Z) (db : Db) : Db * response :=
  match orders db !! order_id with
  | None => (db, Abort 404)
  | Some order =>
      (set_orders db (delete order_id (orders db)),
       Redirect "ecommerce_panel.orders_list")
  end.

(** ** Requests and their routing *)

(** The routes of the two modules.  The panel routes are taken as
    reached by a logged-in staff member; the gating decorators of the
    panel are not among the sources. *)
Inductive request :=
| POST_register (data : option dict)
| POST_login (data : option dict)
| POST_logout (header : option Bearer)
| POST_logout_refresh (header : option Bearer)
| POST_refresh_token (header : option Bearer)
| GET_profile (header : option Bearer)
| PUT_profile (header : option Bearer) (data : option dict)
| GET_orders_list (page per_page : option Z)
| GET_orders_info (order_id : Z)
| GET_confirm_order (order_id : Z)
| GET_order_delete (order_id : Z).

(** The token a request bears, for the routes behind the token layer. *)
Definition bearer_of (req : request) : option Bearer :=
  match req with
  | POST_logout header | POST_logout_refresh header
  | POST_refresh_token header | GET_profile header
  | PUT_profile header _ => header
  | _ => None
  end.

(** The logout route for a kind of token. *)
Definition logout_route (expected : token_type) (header : option Bearer)
    : request :=
  match expected with
  | Access => POST_logout header
  | Refresh => POST_logout_refresh header
  end.

Section routing.
Context `{Crypto}.

(** [method_decorators]: the handler runs once the verification has
    let the request through; its failure is the response. *)
Definition guarded (expected : token_type) (header : option Bearer)
    (handler : RawJwt → Z * User → Db → Db * response) (db : Db)
    : Db * response :=
  match verify_jwt_in_request expected header db with
  | inl failure => (db, failure)
  | inr (raw, current_user) => handler raw current_user db
  end.

Definition dispatch (req : request) (db : Db) : Db * response :=
  match req with
  | POST_register data => RegistrationApi_post data db
  | POST_login data => LoginApi_post data db
  | POST_logout header =>
      guarded Access header (λ raw _, LogoutApi_post raw) db
  | POST_logout_refresh header =>
      guarded Refresh header (λ raw _, LogoutRefreshApi_post raw) db
  | POST_refresh_token header =>
      guarded Refresh header (λ raw _, RefreshTokenApi_post raw) db
  | GET_profile header =>
      guarded Access header (λ _ current_user, ProfileApi_get current_user) db
  | PUT_profile header data =>
      guarded Access header
              (λ _ current_user, ProfileApi_put current_user data) db
  | GET_orders_list page per_page => orders_list page per_page db
  | GET_orders_info order_id => orders_info order_id db
  | GET_confirm_order order_id => confirm_order order_id db
  | GET_order_delete order_id => order_delete order_id db
  end.

(** The store after a sequence of requests, served one after another. *)
Definition serve (reqs : list request) (db : Db) : Db :=
  foldl (λ db req, (dispatch req db).1) db reqs.

End routing.

(** A response of the token layer that turns the request away. *)
Definition rejected (r : response) : Prop :=
  ∃ text code, r = Json (message text) code ∧ (code = 401 ∨ code = 422).

(** No two rows of the user table share an email. *)
Definition emails_unique (db : Db) : Prop :=
  ∀ k1 k2 u1 u2,
    users db !! k1 = Some u1 → users db !! k2 = Some u2 →
    email u1 = email u2 → k1 = k2.

(** ** Stores and requests to run the handlers on *)

Definition empty_db : Db := mkDb ∅ ∅ [].

Definition panel_db : Db :=
  mkDb (<[7 := mkUser (JStr "ada@example.org") JNull JNull "" false false JNull]> ∅)
       (<[1 := mkOrder 7 "Unfulfiled" 5]> (<[2 := mkOrder 7 "Returned" 3]> ∅))
       [].

(** A toy instance of the library functions, for running the handlers on
    concrete requests. *)
Definition toy_crypto : Crypto := {|
  generate_password_hash v := match v with JStr s => "hash:" +:+ s | _ => "hash" end;
  check_password_hash h v :=
    bool_decide (h = match v with JStr s => "hash:" +:+ s | _ => "hash" end);
  create_access_token v := "access-token";
  create_refresh_token v := "refresh-token"
|}.

Definition ada : User :=
  mkUser (JStr "ada@example.org") (JStr "Ada") JNull "hash:lovelace"
         false false JNull.

Definition bob : User :=
  mkUser (JStr "bob@example.org") (JStr "Bob") JNull "hash:builder"
         false true JNull.

(** The body [{"email": ..., "password": ...}]. *)
Definition credentials (e password : string) : dict :=
  <["password" := JStr password]> {["email" := JStr e]}.

Definition auth_db : Db := mkDb (<[1 := ada]> (<[2 := bob]> ∅)) ∅ [].

(** The body [{"email": ...}]. *)
Definition new_email (e : string) : dict := {["email" := JStr e]}.


Definition ada_token : Bearer :=
  mkBearer (mkRawJwt "jti-1" (JStr "ada@example.org") Access) Decodes.

(** ** Proof automation and a name for the toggle *)

(** What [confirm_order] makes of the order it finds. *)
Definition toggled (o : Order) : Order :=
  if decide (status o = "Unfulfiled") then
    mkOrder (user_id o) "Fulfiled" (create_time o)
  else if decide (status o = "Fulfiled") then
    mkOrder (user_id o) "Unfulfiled" (create_time o)
  else o.

Ltac handler_cases :=
  repeat (simpl in *; case_match); simpl in *; simplify_eq; eauto.

Definition one_order_db : Db :=
  mkDb (<[7 := ada]> ∅) (<[1 := mkOrder 7 "Unfulfiled" 5]> ∅) [].

(** ** Vocabulary of the further properties *)

(** The orders a response of the listing shows. *)
Definition listed (r : response) : list (Z * Order) :=
  match r with
  | Render _ (OrdersContext rows) => rows
  | _ => []
  end.

(** Every order carries one of the two strings [confirm_order] writes. *)
Definition statuses_known (db : Db) : Prop :=
  ∀ k o, orders db !! k = Some o →
         status o = "Fulfiled" ∨ status o = "Unfulfiled".

(** No two orders were created at the same time. *)
Definition create_times_distinct (db : Db) : Prop :=
  ∀ k1 k2 o1 o2,
    orders db !! k1 = Some o1 → orders db !! k2 = Some o2 →
    create_time o1 = create_time o2 → k1 = k2.

(** An answer the database may give to
    [Order.query.order_by(Order.create_time.asc())]: the rows of the
    table, each once, in ascending creation time, with ties in any
    order. *)
Definition ordered_by_create_time (db : Db) (rows : list (Z * Order)) : Prop :=
  rows ≡ₚ map_to_list (orders db) ∧ StronglySorted create_time_asc rows.

(** The one route that writes to an existing row of the user table. *)
Definition is_profile_update (req : request) : bool :=
  match req with
  | PUT_profile _ _ => true
  | _ => false
  end.

(** The routes whose handlers hold no write to the store. *)
Definition reads_only (req : request) : bool :=
  match req with
  | POST_login _ | POST_refresh_token _ | GET_profile _
  | GET_orders_list _ _ | GET_orders_info _ => true
  | _ => false
  end.

(** * Properties *)

(** ** Helper lemmas: the store *)

Lemma set_orders_same (db : Db) : set_orders db (orders db) = db.
Proof. by destruct db. Qed.

Lemma set_users_same (db : Db) : set_users db (users db) = db.
Proof. by destruct db. Qed.

Lemma set_orders_twice (db : Db) (os1 os2 : gmap Z Order) :
  set_orders (set_orders db os1) os2 = set_orders db os2.
Proof. done. Qed.

(** ** The order panel *)

Lemma confirm_order_found (order_id : Z) (db : Db) (o : Order) :
  orders db !! order_id = Some o →
  confirm_order order_id db =
    (set_orders db (<[order_id := toggled o]> (orders db)),
     Redirect "ecommerce_panel.orders_list").
Proof. intros Ho. unfold confirm_order. by rewrite Ho. Qed.

Lemma confirm_order_missing (order_id : Z) (db : Db) :
  orders db !! order_id = None → confirm_order order_id db = (db, Abort 404).
Proof. intros Ho. unfold confirm_order. by rewrite Ho. Qed.

Lemma toggled_twice (o : Order) : toggled (toggled o) = o.
Proof.
  destruct o as [uid st ct]. unfold toggled; simpl.
  destruct (decide (st = "Unfulfiled")) as [->|Hu]; simpl; [done|].
  destruct (decide (st = "Fulfiled")) as [->|Hf]; simpl; [done|].
  destruct (decide (st = "Unfulfiled")); [done|].
  by destruct (decide (st = "Fulfiled")).
Qed.

(** C4. Applying [confirm_order] twice to any order id gives back the
    store it started from, whatever the status of the order: a first
    application turns "Unfulfiled" into "Fulfiled", "Fulfiled" into
    "Unfulfiled" and leaves an order with any other status as it is. *)
Theorem confirm_order_twice (order_id : Z) (db : Db) :
  (confirm_order order_id (confirm_order order_id db).1).1 = db ∧
  ∀ o, orders db !! order_id = Some o →
    ∃ o', orders (confirm_order order_id db).1 !! order_id = Some o' ∧
          user_id o' = user_id o ∧ create_time o' = create_time o ∧
          (status o = "Unfulfiled" → status o' = "Fulfiled") ∧
          (status o = "Fulfiled" → status o' = "Unfulfiled") ∧
          (status o ≠ "Unfulfiled" → status o ≠ "Fulfiled" → o' = o).
Proof.
  split.
  - destruct (orders db !! order_id) as [o|] eqn:Ho.
    + rewrite (confirm_order_found _ _ _ Ho); simpl.
      erewrite confirm_order_found; last by (simpl; apply lookup_insert_eq).
      simpl. rewrite insert_insert_eq, toggled_twice, (insert_id _ _ _ Ho).
      rewrite set_orders_twice. apply set_orders_same.
    + rewrite (confirm_order_missing _ _ Ho); simpl.
      by rewrite (confirm_order_missing _ _ Ho).
  - intros o Ho. rewrite (confirm_order_found _ _ _ Ho); simpl.
    exists (toggled o). rewrite lookup_insert_eq. split; [done|].
    unfold toggled.
    destruct (decide (status o = "Unfulfiled")) as [Hu|Hu]; simpl.
    { repeat split; try done. by rewrite Hu. }
    destruct (decide (status o = "Fulfiled")) as [Hf|Hf]; simpl;
      repeat split; intros; congruence.
Qed.

Lemma confirm_order_twice_witness :
  ∃ o', orders (confirm_order 1 panel_db).1 !! 1 = Some o' ∧
        user_id o' = 7 ∧ create_time o' = 5 ∧
        ("Unfulfiled" = "Unfulfiled" → status o' = "Fulfiled") ∧
        ("Unfulfiled" = "Fulfiled" → status o' = "Unfulfiled") ∧
        ("Unfulfiled" ≠ "Unfulfiled" → "Unfulfiled" ≠ "Fulfiled" →
         o' = mkOrder 7 "Unfulfiled" 5).
Proof.
  apply (proj2 (confirm_order_twice 1 panel_db) (mkOrder 7 "Unfulfiled" 5)).
  reflexivity.
Defined.

Lemma order_delete_missing (order_id : Z) (db : Db) :
  orders (order_delete order_id db).1 !! order_id = None.
Proof.
  unfold order_delete.
  destruct (orders db !! order_id) eqn:Ho; simpl; [|done].
  apply lookup_delete_eq.
Qed.

(** ** Helper lemmas: what a request can do to the tables *)

Section tables.
Context `{Crypto}.

Lemma RegistrationApi_post_tables (data : option dict) (db : Db) :
  orders (RegistrationApi_post data db).1 = orders db ∧
  revoked_tokens (RegistrationApi_post data db).1 = revoked_tokens db.
Proof. unfold RegistrationApi_post. handler_cases. Qed.

Lemma LoginApi_post_store (data : option dict) (db : Db) :
  (LoginApi_post data db).1 = db.
Proof. unfold LoginApi_post. handler_cases. Qed.

Lemma ProfileApi_put_tables (cu : Z * User) (data : option dict) (db : Db) :
  orders (ProfileApi_put cu data db).1 = orders db ∧
  revoked_tokens (ProfileApi_put cu data db).1 = revoked_tokens db.
Proof. unfold ProfileApi_put. handler_cases. Qed.

Lemma orders_list_store (page per_page : option Z) (db : Db) :
  (orders_list page per_page db).1 = db.
Proof. unfold orders_list. handler_cases. Qed.

Lemma orders_info_store (order_id : Z) (db : Db) :
  (orders_info order_id db).1 = db.
Proof. unfold orders_info. handler_cases. Qed.

(** No route creates an order: a key without a row stays without one. *)
Lemma dispatch_order_missing (req : request) (db : Db) (k : Z) :
  orders db !! k = None → orders (dispatch req db).1 !! k = None.
Proof.
  intros Hk. destruct req; simpl.
  - by rewrite (proj1 (RegistrationApi_post_tables _ _)).
  - by rewrite LoginApi_post_store.
  - unfold guarded. handler_cases.
  - unfold guarded. handler_cases.
  - unfold guarded. handler_cases.
  - unfold guarded. handler_cases.
  - unfold guarded. case_match; [done|]. case_match.
    by rewrite (proj1 (ProfileApi_put_tables _ _ _)).
  - by rewrite orders_list_store.
  - by rewrite orders_info_store.
  - unfold confirm_order. case_match; simpl; [|done].
    rewrite lookup_insert_ne; [done|]. congruence.
  - unfold order_delete. case_match; simpl; [|done].
    rewrite lookup_delete_ne; [done|]. congruence.
Qed.

(** The revoked-token table only grows. *)
Lemma dispatch_revoked (req : request) (db : Db) (j : string) :
  j ∈ revoked_tokens db → j ∈ revoked_tokens (dispatch req db).1.
Proof.
  intros Hj. destruct req; simpl.
  - by rewrite (proj2 (RegistrationApi_post_tables _ _)).
  - by rewrite LoginApi_post_store.
  - unfold guarded. handler_cases. set_solver.
  - unfold guarded. handler_cases. set_solver.
  - unfold guarded. handler_cases.
  - unfold guarded. handler_cases.
  - unfold guarded. case_match; [done|]. case_match.
    by rewrite (proj2 (ProfileApi_put_tables _ _ _)).
  - by rewrite orders_list_store.
  - by rewrite orders_info_store.
  - unfold confirm_order. by case_match.
  - unfold order_delete. by case_match.
Qed.

Lemma serve_order_missing (reqs : list request) (db : Db) (k : Z) :
  orders db !! k = None → orders (serve reqs db) !! k = None.
Proof.
  revert db. induction reqs as [|req reqs IH]; intros db Hk; [done|].
  simpl. apply IH. by apply dispatch_order_missing.
Qed.

Lemma serve_revoked (reqs : list request) (db : Db) (j : string) :
  j ∈ revoked_tokens db → j ∈ revoked_tokens (serve reqs db).
Proof.
  revert db. induction reqs as [|req reqs IH]; intros db Hj; [done|].
  simpl. apply IH. by apply dispatch_revoked.
Qed.

End tables.

(** C7. Once [order_delete] has run for an order id, the detail view
    [orders_info] for that id aborts with 404, after any further
    requests.  The detail view renders the order with its owning user
    exactly when both rows exist, aborts with 404 otherwise, and never
    changes the store. *)
Theorem order_delete_then_orders_info `{Crypto} (order_id : Z) (db : Db) :
  (∀ reqs,
     orders_info order_id (serve reqs (order_delete order_id db).1)
     = (serve reqs (order_delete order_id db).1, Abort 404)) ∧
  (orders_info order_id db).1 = db ∧
  match (orders_info order_id db).2 with
  | Render template (OrderInfoContext (i, o) (j, u)) =>
      template = "order/orders_info.html" ∧ i = order_id ∧
      orders db !! order_id = Some o ∧ j = user_id o ∧ users db !! j = Some u
  | Abort code =>
      code = 404 ∧
      (orders db !! order_id = None ∨
       ∃ o, orders db !! order_id = Some o ∧ users db !! user_id o = None)
  | _ => False
  end.
Proof.
  split; [|split].
  - intros reqs.
    pose proof (serve_order_missing reqs _ _ (order_delete_missing order_id db))
      as Hgone.
    unfold orders_info at 1. by rewrite Hgone.
  - apply orders_info_store.
  - unfold orders_info.
    destruct (orders db !! order_id) as [o|] eqn:Ho; simpl; [|by auto].
    destruct (users db !! user_id o) as [u|] eqn:Hu; simpl; [done|].
    split; [done|]. right. by exists o.
Qed.

(** C8. Counterexample: on the empty store the listing renders its
    template; it does not redirect. *)
Lemma orders_list_renders :
  (orders_list None None empty_db).2
    = Render "order/orders_list.html" (OrdersContext []) ∧
  (orders_list None None empty_db).2 ≠ Redirect "ecommerce_panel.orders_list".
Proof. split; [reflexivity | discriminate]. Qed.

(** C8, amended. The status toggle and the delete redirect to the order
    listing when the order exists, and abort with 404 when it does not.
    The listing and the detail view never answer with a redirect: the
    listing renders its template, or raises the division error when the
    page size is 0, and the detail view renders its template or aborts
    with 404. *)
Theorem panel_redirects (order_id : Z) (db : Db) :
  (is_Some (orders db !! order_id) →
     (confirm_order order_id db).2 = Redirect "ecommerce_panel.orders_list" ∧
     (order_delete order_id db).2 = Redirect "ecommerce_panel.orders_list") ∧
  (orders db !! order_id = None →
     (confirm_order order_id db).2 = Abort 404 ∧
     (order_delete order_id db).2 = Abort 404) ∧
  (∀ page per_page endpoint,
     (orders_list page per_page db).2 ≠ Redirect endpoint) ∧
  (∀ endpoint, (orders_info order_id db).2 ≠ Redirect endpoint) ∧
  (∀ page per_page,
     (args_get per_page 20 ≠ 0 →
      ∃ rows, (orders_list page per_page db).2
              = Render "order/orders_list.html" (OrdersContext rows)) ∧
     (args_get per_page 20 = 0 →
      (orders_list page per_page db).2 = Raise "ZeroDivisionError")) ∧
  ((∃ ctx, (orders_info order_id db).2 = Render "order/orders_info.html" ctx) ∨
   (orders_info order_id db).2 = Abort 404).
Proof.
  split; [|split; [|split; [|split; [|split]]]].
  - unfold confirm_order, order_delete. by intros [o ->].
  - unfold confirm_order, order_delete. by intros ->.
  - intros page per_page endpoint. unfold orders_list. by case_match.
  - intros endpoint. unfold orders_info. by repeat case_match.
  - intros page per_page. unfold orders_list, page_count.
    destruct (Z.eqb_spec (args_get per_page 20) 0) as [Hz|Hz]; simpl.
    + by split.
    + split; [by eauto | done].
  - unfold orders_info.
    destruct (orders db !! order_id) as [o|]; simpl; [|by right].
    destruct (users db !! user_id o) as [u|]; simpl; [left; by eauto | by right].
Qed.

Lemma panel_redirects_witness :
  ((confirm_order 1 panel_db).2 = Redirect "ecommerce_panel.orders_list" ∧
   (order_delete 1 panel_db).2 = Redirect "ecommerce_panel.orders_list") ∧
  ((confirm_order 3 panel_db).2 = Abort 404 ∧
   (order_delete 3 panel_db).2 = Abort 404) ∧
  (∃ rows, (orders_list None (Some 5) panel_db).2
           = Render "order/orders_list.html" (OrdersContext rows)) ∧
  (orders_list None (Some 0) panel_db).2 = Raise "ZeroDivisionError".
Proof.
  split; [|split; [|split]].
  - apply (proj1 (panel_redirects 1 panel_db)).
    exists (mkOrder 7 "Unfulfiled" 5). reflexivity.
  - apply (proj1 (proj2 (panel_redirects 3 panel_db))). reflexivity.
  - apply (proj1 (proj2 (proj2 (proj2 (proj2 (panel_redirects 1 panel_db)))))
             None (Some 5)).
    discriminate.
  - apply (proj1 (proj2 (proj2 (proj2 (proj2 (panel_redirects 1 panel_db)))))
             None (Some 0)).
    reflexivity.
Defined.

(** C9. The page count of [orders_list] is defined exactly for a page
    size other than zero: with [per_page=0] in the query string the
    handler raises [ZeroDivisionError], with any other page size it
    renders the listing. *)
Theorem orders_list_per_page_zero :
  (∀ count per_page, page_count count per_page = None ↔ per_page = 0) ∧
  (∀ page db, orders_list page (Some 0) db = (db, Raise "ZeroDivisionError")) ∧
  (∀ page per_page db,
     args_get per_page 20 ≠ 0 →
     ∃ items, orders_list page per_page db
              = (db, Render "order/orders_list.html" (OrdersContext items))).
Proof.
  assert (Hpc : ∀ count per_page, page_count count per_page = None ↔ per_page = 0).
  { intros count per_page. unfold page_count.
    destruct (Z.eqb_spec per_page 0); split; intros; done || lia. }
  split; [exact Hpc|]. split.
  - intros page db. reflexivity.
  - intros page per_page db Hne. unfold orders_list.
    destruct (page_count _ (args_get per_page 20)) as [pages|] eqn:Hp.
    + eauto.
    + by apply Hpc in Hp.
Qed.

Lemma orders_list_per_page_zero_witness :
  ∃ items, orders_list None (Some 5) panel_db
           = (panel_db, Render "order/orders_list.html" (OrdersContext items)).
Proof.
  apply (proj2 (proj2 orders_list_per_page_zero) None (Some 5) panel_db).
  discriminate.
Defined.

(** ** Helper lemmas: queries on the user table *)

Lemma elem_of_filter_by_email (e : json) (db : Db) (k : Z) (u : User) :
  (k, u) ∈ filter_by_email e db ↔ users db !! k = Some u ∧ email u = e.
Proof.
  unfold filter_by_email. rewrite list_elem_of_filter, elem_of_map_to_list.
  simpl. tauto.
Qed.

Lemma filter_by_email_nil (e : json) (db : Db) :
  filter_by_email e db = [] ↔ ∀ k u, users db !! k = Some u → email u ≠ e.
Proof.
  split.
  - intros Hnil k u Hk He.
    assert (Hin : (k, u) ∈ filter_by_email e db)
      by by apply elem_of_filter_by_email.
    rewrite Hnil in Hin. by apply not_elem_of_nil in Hin.
  - intros Hnone. destruct (filter_by_email e db) as [|[k u] rows] eqn:Hrows;
      [done|].
    assert (Hin : (k, u) ∈ filter_by_email e db) by (rewrite Hrows; left).
    apply elem_of_filter_by_email in Hin as [Hk He]. by destruct (Hnone k u).
Qed.

Lemma filter_by_email_NoDup (e : json) (db : Db) : NoDup (filter_by_email e db).
Proof. apply NoDup_filter, NoDup_map_to_list. Qed.

(** The row a unique email selects is the whole answer of the query. *)
Lemma filter_by_email_unique (e : json) (db : Db) (k : Z) (u : User) :
  users db !! k = Some u → email u = e →
  (∀ k' u', users db !! k' = Some u' → email u' = e → k' = k) →
  filter_by_email e db = [(k, u)].
Proof.
  intros Hk He Huniq.
  assert (Hall : ∀ row, row ∈ filter_by_email e db → row = (k, u)).
  { intros [k' u'] [Hk' He']%elem_of_filter_by_email.
    assert (k' = k) as -> by eauto. congruence. }
  assert (Hin : (k, u) ∈ filter_by_email e db)
    by by apply elem_of_filter_by_email.
  pose proof (filter_by_email_NoDup e db) as Hnd.
  destruct (filter_by_email e db) as [|row rows]; [by apply not_elem_of_nil in Hin|].
  rewrite (Hall row) in * by left.
  destruct rows as [|row' rows]; [done|].
  rewrite (Hall row') in Hnd by (right; left).
  apply NoDup_cons in Hnd as [Hnotin _]. destruct Hnotin. left.
Qed.

Lemma first_filter_by_email_found (e : json) (db : Db) (k : Z) (u : User) :
  users db !! k = Some u → email u = e →
  is_found (first (filter_by_email e db)) = true.
Proof.
  intros Hk He.
  assert (Hin : (k, u) ∈ filter_by_email e db)
    by by apply elem_of_filter_by_email.
  destruct (filter_by_email e db); [by apply not_elem_of_nil in Hin|done].
Qed.

Lemma first_filter_by_email_missing (e : json) (db : Db) :
  is_found (first (filter_by_email e db)) = false →
  ∀ k u, users db !! k = Some u → email u ≠ e.
Proof.
  intros Hnone. apply filter_by_email_nil.
  by destruct (filter_by_email e db).
Qed.

Lemma add_user_lookup (u : User) (db : Db) :
  ∃ k, users db !! k = None ∧ users (add_user u db) = <[k := u]> (users db).
Proof.
  exists (fresh (dom (users db))). split; [|done].
  apply not_elem_of_dom, is_fresh.
Qed.

Lemma check_data_required (data : option dict) (a b : string) :
  check_data data [a; b] = true ↔
  ∃ d, data = Some d ∧ is_Some (d !! a) ∧ is_Some (d !! b).
Proof.
  destruct data as [d|]; simpl.
  - rewrite !andb_true_iff, !bool_decide_eq_true. split.
    + intros (Ha & Hb & _). by exists d.
    + intros (d' & [= <-] & Ha & Hb). done.
  - split; [done|]. by intros (d & ? & _).
Qed.


(** ** Registration and login *)

Section credentials.
Context `{Crypto}.

Lemma RegistrationApi_post_checked (d : dict) (db : Db) (password e : json) :
  d !! "password" = Some password → d !! "email" = Some e →
  RegistrationApi_post (Some d) db =
    if is_found (first (filter_by_email e db)) then
      (db, RegistrationApi_already_exists)
    else
      (add_user (new_User password e (dict_get d "first_name")
                          (dict_get d "last_name")) db,
       Json [("message", JStr "Successfully registered");
             ("access_token", JStr (create_access_token e));
             ("refresh_token", JStr (create_refresh_token e))] 200).
Proof.
  intros Hp He. unfold RegistrationApi_post.
  assert (check_data (Some d) ["password"; "email"] = true) as ->.
  { apply check_data_required. exists d. by rewrite Hp, He. }
  simpl. by rewrite Hp, He.
Qed.

Lemma RegistrationApi_post_unchecked (data : option dict) (db : Db) :
  check_data data ["password"; "email"] = false →
  RegistrationApi_post data db = (db, bad_request).
Proof. intros Hc. unfold RegistrationApi_post. by rewrite Hc. Qed.

Lemma LoginApi_post_unchecked (data : option dict) (db : Db) :
  check_data data ["email"; "password"] = false →
  LoginApi_post data db = (db, bad_request).
Proof. intros Hc. unfold LoginApi_post. by rewrite Hc. Qed.

Lemma check_data_missing (data : option dict) (a b : string) :
  (∀ d, data = Some d → d !! a = None ∨ d !! b = None) →
  check_data data [a; b] = false.
Proof.
  intros Hmiss. apply not_true_is_false.
  intros (d & -> & [va Ha] & [vb Hb])%check_data_required.
  destruct (Hmiss d eq_refl); congruence.
Qed.

(** What a registration that went through leaves behind. *)
Lemma RegistrationApi_post_success (data : option dict) (db db' : Db)
    (body : list (string * json)) :
  RegistrationApi_post data db = (db', Json body 200) →
  ∃ d password e k,
    data = Some d ∧ d !! "password" = Some password ∧ d !! "email" = Some e ∧
    (∀ k' u', users db !! k' = Some u' → email u' ≠ e) ∧
    users db !! k = None ∧
    users db' = <[k := new_User password e (dict_get d "first_name")
                                 (dict_get d "last_name")]> (users db).
Proof.
  intros Hpost.
  destruct (check_data data ["password"; "email"]) eqn:Hc.
  - apply check_data_required in Hc as (d & -> & [password Hp] & [e He]).
    rewrite (RegistrationApi_post_checked _ _ _ _ Hp He) in Hpost.
    destruct (is_found _) eqn:Hfound; [done|].
    injection Hpost as <- _.
    destruct (add_user_lookup
                (new_User password e (dict_get d "first_name")
                          (dict_get d "last_name")) db) as (k & Hk & Hadd).
    exists d, password, e, k. repeat split; try done.
    by apply first_filter_by_email_missing.
  - by rewrite (RegistrationApi_post_unchecked _ _ Hc) in Hpost.
Qed.

End credentials.

(** C1. Counterexample: a registration body that carries the email of a
    stored user but no password is answered with the invalid-form
    response, not with the conflict response. *)
Lemma register_stored_email_without_password :
  let d : dict := {["email" := JStr "ada@example.org"]} in
  d !! "email" = Some (email ada) ∧
  users auth_db !! 1 = Some ada ∧
  @RegistrationApi_post toy_crypto (Some d) auth_db
    = (auth_db, Json (message "Unvalid form submitted") 400) ∧
  (@RegistrationApi_post toy_crypto (Some d) auth_db).2
    ≠ Json (message "A user with this email already exists.") 409.
Proof. vm_compute. repeat split; discriminate. Qed.

(** C1, amended. A registration request that carries both required
    fields, and whose email is the email of a stored user, gets the
    conflict response (the fixed message with status 409) and leaves the
    store as it was; so a registration that went through is answered
    with the conflict response when it is sent again. *)
Theorem register_conflict `{Crypto} (data : option dict) (db : Db) :
  (∀ d password e k u,
     data = Some d → d !! "password" = Some password → d !! "email" = Some e →
     users db !! k = Some u → email u = e →
     RegistrationApi_post data db
     = (db, Json (message "A user with this email already exists.") 409)) ∧
  (∀ db' body,
     RegistrationApi_post data db = (db', Json body 200) →
     RegistrationApi_post data db'
     = (db', Json (message "A user with this email already exists.") 409)).
Proof.
  assert (Hfirst : ∀ db0 d password e k u,
     d !! "password" = Some password → d !! "email" = Some e →
     users db0 !! k = Some u → email u = e →
     RegistrationApi_post (Some d) db0
     = (db0, Json (message "A user with this email already exists.") 409)).
  { intros db0 d password e k u Hp He Hk Hu.
    rewrite (RegistrationApi_post_checked _ _ _ _ Hp He).
    by rewrite (first_filter_by_email_found _ _ _ _ Hk Hu). }
  split.
  - intros d password e k u -> Hp He Hk Hu. eauto.
  - intros db' body Hpost.
    apply RegistrationApi_post_success
      in Hpost as (d & password & e & k & -> & Hp & He & _ & _ & Husers).
    eapply (Hfirst db' d password e k);
      [done | done | rewrite Husers; apply lookup_insert_eq | done].
Qed.

Lemma register_conflict_witness :
  @RegistrationApi_post toy_crypto (Some (credentials "ada@example.org" "secret"))
                        auth_db
  = (auth_db, Json (message "A user with this email already exists.") 409) ∧
  let eve := Some (credentials "eve@example.org" "apple") in
  let db' := (@RegistrationApi_post toy_crypto eve auth_db).1 in
  @RegistrationApi_post toy_crypto eve db'
  = (db', Json (message "A user with this email already exists.") 409).
Proof.
  split.
  - apply (proj1 (@register_conflict toy_crypto _ auth_db)
                 (credentials "ada@example.org" "secret")
                 (JStr "secret") (JStr "ada@example.org") 1 ada);
      reflexivity.
  - apply (proj2 (@register_conflict toy_crypto
                    (Some (credentials "eve@example.org" "apple")) auth_db)
                 _ [("message", JStr "Successfully registered");
                    ("access_token", JStr "access-token");
                    ("refresh_token", JStr "refresh-token")]).
    vm_compute. reflexivity.
Defined.



(** Where the premise of the password check ends: with two rows for the
    email, [scalar()] raises before any password is checked. *)
Lemma login_shared_email_raises `{Crypto} (d : dict) (db : Db)
    (password e : json) (k1 k2 : Z) (u1 u2 : User) :
  d !! "email" = Some e → d !! "password" = Some password →
  users db !! k1 = Some u1 → users db !! k2 = Some u2 → k1 ≠ k2 →
  email u1 = e → email u2 = e →
  LoginApi_post (Some d) db = (db, Raise "MultipleResultsFound").
Proof.
  intros He Hp H1 H2 Hne E1 E2. unfold LoginApi_post.
  assert (check_data (Some d) ["email"; "password"] = true) as ->.
  { apply check_data_required. exists d. by rewrite Hp, He. }
  simpl. rewrite Hp, He.
  assert (In1 : (k1, u1) ∈ filter_by_email e db)
    by by apply elem_of_filter_by_email.
  assert (In2 : (k2, u2) ∈ filter_by_email e db)
    by by apply elem_of_filter_by_email.
  destruct (filter_by_email e db) as [|r1 [|r2 rows]]; simpl; [| |done].
  - by apply not_elem_of_nil in In1.
  - apply list_elem_of_singleton in In1, In2. congruence.
Qed.


(** C6. A registration or login request whose body lacks the email or
    the password field (or is no JSON object at all) is answered with
    the fixed invalid-form response, status 400, and the store is left
    as it was: no user row is created. *)
Theorem missing_field_bad_request `{Crypto} (data : option dict) (db : Db) :
  (∀ d, data = Some d → d !! "email" = None ∨ d !! "password" = None) →
  RegistrationApi_post data db
  = (db, Json (message "Unvalid form submitted") 400) ∧
  LoginApi_post data db
  = (db, Json (message "Unvalid form submitted") 400).
Proof.
  intros Hmiss. split.
  - apply RegistrationApi_post_unchecked, check_data_missing.
    intros d Hd. destruct (Hmiss d Hd); auto.
  - by apply LoginApi_post_unchecked, check_data_missing.
Qed.

Lemma missing_field_bad_request_witness :
  let body : option dict := Some {["email" := JStr "eve@example.org"]} in
  @RegistrationApi_post toy_crypto body auth_db
  = (auth_db, Json (message "Unvalid form submitted") 400) ∧
  @LoginApi_post toy_crypto body auth_db
  = (auth_db, Json (message "Unvalid form submitted") 400).
Proof.
  apply (@missing_field_bad_request toy_crypto).
  intros d [= <-]. right. reflexivity.
Defined.

(** ** Profile update *)

Section profile.
Context `{Crypto}.

Lemma updated_fields (d : dict) (u : User) :
  let supplied field := truthy (dict_get d field) in
  first_name (updated d u)
    = (if supplied "first_name" then dict_get d "first_name" else first_name u) ∧
  last_name (updated d u)
    = (if supplied "last_name" then dict_get d "last_name" else last_name u) ∧
  email (updated d u)
    = (if supplied "email" then dict_get d "email" else email u) ∧
  password_hash (updated d u)
    = (if supplied "password"
       then generate_password_hash (dict_get d "password")
       else password_hash u) ∧
  is_admin (updated d u) = is_admin u ∧
  is_staff (updated d u) = is_staff u ∧
  group (updated d u) = group u.
Proof.
  unfold updated, put_fields, put_field. simpl.
  destruct (truthy (dict_get d "first_name"));
    destruct (truthy (dict_get d "last_name"));
    destruct (truthy (dict_get d "email"));
    destruct (truthy (dict_get d "password")); done.
Qed.

Lemma updated_empty (u : User) : updated ∅ u = u.
Proof. done. Qed.

Lemma ProfileApi_put_users (uid : Z) (cu : User) (data : option dict)
    (db : Db) :
  users db !! uid = Some cu →
  users (ProfileApi_put (uid, cu) data db).1
  = <[uid := updated (default ∅ data) cu]> (users db).
Proof.
  intros Hcu. destruct data as [d|]; simpl; [done|].
  by rewrite updated_empty, insert_id.
Qed.

End profile.

(** C5. [ProfileApi.put] sets each of [first_name], [last_name], [email]
    and [password] (stored hashed) to the value of the body when that
    value is there and truthy, and leaves it as it was otherwise; every
    other column of the current user, every other user row and the other
    tables keep their values. *)
Theorem ProfileApi_put_changes `{Crypto} (uid : Z) (cu : User)
    (data : option dict) (db : Db) :
  users db !! uid = Some cu →
  let d := default ∅ data in
  let supplied field := truthy (dict_get d field) in
  let db' := (ProfileApi_put (uid, cu) data db).1 in
  ∃ cu',
    users db' !! uid = Some cu' ∧
    first_name cu'
      = (if supplied "first_name" then dict_get d "first_name" else first_name cu) ∧
    last_name cu'
      = (if supplied "last_name" then dict_get d "last_name" else last_name cu) ∧
    email cu'
      = (if supplied "email" then dict_get d "email" else email cu) ∧
    password_hash cu'
      = (if supplied "password"
         then generate_password_hash (dict_get d "password")
         else password_hash cu) ∧
    is_admin cu' = is_admin cu ∧ is_staff cu' = is_staff cu ∧
    group cu' = group cu ∧
    (∀ k, k ≠ uid → users db' !! k = users db !! k) ∧
    orders db' = orders db ∧
    revoked_tokens db' = revoked_tokens db.
Proof.
  intros Hcu d supplied db'. exists (updated d cu).
  pose proof (updated_fields d cu) as (Hf & Hl & He & Hp & Ha & Hs & Hg).
  subst db'. rewrite (ProfileApi_put_users _ _ _ _ Hcu).
  rewrite lookup_insert_eq.
  repeat (split; [done|]). split.
  - intros k Hk. by rewrite lookup_insert_ne.
  - apply ProfileApi_put_tables.
Qed.

Lemma ProfileApi_put_changes_witness :
  let d : dict := <["first_name" := JStr "Augusta"]>
                  (<["last_name" := JStr ""]> {["email" := JNull]}) in
  let db' := (@ProfileApi_put toy_crypto (1, ada) (Some d) auth_db).1 in
  ∃ cu',
    users db' !! 1 = Some cu' ∧
    first_name cu' = JStr "Augusta" ∧
    last_name cu' = JNull ∧
    email cu' = JStr "ada@example.org" ∧
    password_hash cu' = "hash:lovelace" ∧
    is_admin cu' = false ∧ is_staff cu' = false ∧ group cu' = JNull ∧
    (∀ k, k ≠ 1 → users db' !! k = users auth_db !! k) ∧
    orders db' = orders auth_db ∧
    revoked_tokens db' = revoked_tokens auth_db.
Proof.
  exact (@ProfileApi_put_changes toy_crypto 1 ada
           (Some (<["first_name" := JStr "Augusta"]>
                  (<["last_name" := JStr ""]> {["email" := JNull]}))) auth_db
           eq_refl).
Defined.

Lemma auth_db_emails_unique : emails_unique auth_db.
Proof.
  intros k1 k2 u1 u2 H1 H2 He. unfold auth_db in H1, H2; simpl in H1, H2.
  apply lookup_insert_Some in H1 as [[<- <-]|[? H1]];
    apply lookup_insert_Some in H2 as [[<- <-]|[? H2]]; try done.
  - apply lookup_insert_Some in H2 as [[<- <-]|[? H2]]; [done|].
    by rewrite lookup_empty in H2.
  - apply lookup_insert_Some in H1 as [[<- <-]|[? H1]]; [done|].
    by rewrite lookup_empty in H1.
  - apply lookup_insert_Some in H1 as [[<- <-]|[? H1]];
      apply lookup_insert_Some in H2 as [[<- <-]|[? H2]]; try done;
      by rewrite lookup_empty in *.
Qed.

Section uniqueness.
Context `{Crypto}.

Lemma RegistrationApi_post_cases (data : option dict) (db : Db) :
  (RegistrationApi_post data db).1 = db ∨
  ∃ body, RegistrationApi_post data db
          = ((RegistrationApi_post data db).1, Json body 200).
Proof.
  unfold RegistrationApi_post. repeat case_match; simpl; eauto.
Qed.

(** Registration keeps the emails of the user table distinct. *)
Lemma RegistrationApi_post_emails_unique (data : option dict) (db : Db) :
  emails_unique db → emails_unique (RegistrationApi_post data db).1.
Proof.
  intros Huniq.
  destruct (RegistrationApi_post_cases data db) as [-> | [body Hpost]];
    [done|].
  apply RegistrationApi_post_success
    in Hpost as (d & password & e & k & _ & _ & _ & Hnew & Hk & Husers).
  unfold emails_unique. rewrite Husers.
  intros k1 k2 u1 u2 H1 H2 He.
  apply lookup_insert_Some in H1 as [[<- <-]|[? H1]];
    apply lookup_insert_Some in H2 as [[<- <-]|[? H2]]; try done.
  - by destruct (Hnew _ _ H2).
  - by destruct (Hnew _ _ H1).
  - eauto.
Qed.

End uniqueness.

(** C10. When the body of a profile update holds a truthy email,
    [ProfileApi.put] writes it to the current user and commits, whoever
    else holds that email: the other rows are not looked at.  Registration
    keeps the emails of the user table distinct; the profile update does
    not. *)
Theorem ProfileApi_put_email_unchecked `{Crypto} :
  (∀ uid cu d db e,
     users db !! uid = Some cu → d !! "email" = Some e → truthy e = true →
     let db' := (ProfileApi_put (uid, cu) (Some d) db).1 in
     ∃ cu' body,
       (ProfileApi_put (uid, cu) (Some d) db).2 = Json body 200 ∧
       users db' !! uid = Some cu' ∧ email cu' = e ∧
       ∀ k, k ≠ uid → users db' !! k = users db !! k) ∧
  (∀ data db,
     emails_unique db → emails_unique (RegistrationApi_post data db).1) ∧
  emails_unique auth_db ∧
  users auth_db !! 1 = Some ada ∧
  ¬ emails_unique
      (ProfileApi_put (1, ada) (Some (new_email "bob@example.org")) auth_db).1.
Proof.
  split; [|split; [|split; [|split]]].
  - intros uid cu d db e Hcu He Ht db'. subst db'.
    exists (updated d cu). eexists. split; [reflexivity|].
    rewrite (ProfileApi_put_users _ _ (Some d) _ Hcu). simpl.
    rewrite lookup_insert_eq. split; [done|]. split.
    + pose proof (updated_fields d cu) as (_ & _ & Hem & _).
      rewrite Hem. unfold dict_get. rewrite He. simpl. by rewrite Ht.
    + intros k Hk. by rewrite lookup_insert_ne.
  - apply RegistrationApi_post_emails_unique.
  - apply auth_db_emails_unique.
  - reflexivity.
  - intros Huniq.
    assert (1 = 2) as Heq; [|done].
    apply (Huniq 1 2 (updated (new_email "bob@example.org") ada) bob);
      reflexivity.
Qed.

Lemma ProfileApi_put_email_unchecked_witness :
  let db' := (@ProfileApi_put toy_crypto (1, ada)
                (Some (new_email "bob@example.org")) auth_db).1 in
  ∃ cu' body,
    (@ProfileApi_put toy_crypto (1, ada)
       (Some (new_email "bob@example.org")) auth_db).2 = Json body 200 ∧
    users db' !! 1 = Some cu' ∧ email cu' = JStr "bob@example.org" ∧
    ∀ k, k ≠ 1 → users db' !! k = users auth_db !! k.
Proof.
  exact (proj1 (@ProfileApi_put_email_unchecked toy_crypto)
               1 ada (new_email "bob@example.org") auth_db
               (JStr "bob@example.org") eq_refl eq_refl eq_refl).
Defined.

(** ** Logout *)

Lemma rejected_401 (text : string) : rejected (Json (message text) 401).
Proof. exists text, 401. auto. Qed.

Lemma rejected_422 (text : string) : rejected (Json (message text) 422).
Proof. exists text, 422. auto. Qed.

(** A token whose [jti] is in the revoked-token table is turned away,
    whatever the route expects and however the token decodes. *)
Lemma verify_jwt_in_request_revoked (expected : token_type) (bearer : Bearer)
    (db : Db) :
  jti (raw_jwt bearer) ∈ revoked_tokens db →
  ∃ r, verify_jwt_in_request expected (Some bearer) db = inl r ∧ rejected r.
Proof.
  intros Hrev. unfold verify_jwt_in_request.
  destruct (decode bearer) as [| |reason]; [|(eexists; split; [reflexivity | apply rejected_401 || apply rejected_422])..].
  destruct (bool_decide (type (raw_jwt bearer) = expected)); simpl;
    [|(eexists; split; [reflexivity | apply rejected_401 || apply rejected_422])].
  unfold is_jti_blacklisted. rewrite (bool_decide_eq_true_2 _ Hrev).
  destruct (type (raw_jwt bearer)); simpl; (eexists; split; [reflexivity | apply rejected_401 || apply rejected_422]).
Qed.

Lemma verify_jwt_in_request_type (expected : token_type)
    (header : option Bearer) (db : Db) (raw : RawJwt) (cu : Z * User) :
  verify_jwt_in_request expected header db = inr (raw, cu) →
  ∃ bearer, header = Some bearer ∧ raw = raw_jwt bearer ∧
            type raw = expected ∧ (jti raw ∉ revoked_tokens db) ∧
            users db !! cu.1 = Some cu.2.
Proof.
  unfold verify_jwt_in_request, user_loader, first. intros Hv.
  destruct header as [bearer|]; [|done]. exists bearer.
  destruct (decode bearer); [|done..].
  destruct (bool_decide (type (raw_jwt bearer) = expected)) eqn:Hty;
    simpl in Hv; [|done].
  apply bool_decide_eq_true in Hty.
  destruct (_ && is_jti_blacklisted _ _) eqn:Hbl; [done|].
  destruct (head _) as [[k u]|] eqn:Hhead; [|done].
  injection Hv as <- <-. repeat split; try done.
  - intros Hin. unfold is_jti_blacklisted in Hbl.
    rewrite (bool_decide_eq_true_2 _ Hin) in Hbl.
    by destruct (type (raw_jwt bearer)).
  - apply head_Some_elem_of, elem_of_filter_by_email in Hhead. apply Hhead.
Qed.

(** C2. A logout request that passes the verification, with an access
    token on [/logout/] or a refresh token on [/logout-refresh/], adds
    the [jti] of its token to the revoked-token table; after that, and
    after any further requests, every request on a token route that
    bears a token with this [jti] is turned away by the verification
    with status 401 or 422 and changes nothing. *)
Theorem logout_revokes `{Crypto} (expected : token_type)
    (header : option Bearer) (db : Db) (raw : RawJwt) (cu : Z * User) :
  verify_jwt_in_request expected header db = inr (raw, cu) →
  let db1 := (dispatch (logout_route expected header) db).1 in
  (jti raw ∉ revoked_tokens db) ∧
  revoked_tokens db1 = revoked_tokens db ++ [jti raw] ∧
  ∀ reqs req bearer,
    bearer_of req = Some bearer → jti (raw_jwt bearer) = jti raw →
    ∃ r, dispatch req (serve reqs db1) = (serve reqs db1, r) ∧ rejected r.
Proof.
  intros Hv db1.
  assert (Hdb1 : db1 = RevokedToken_add (jti raw) db).
  { subst db1. destruct expected; simpl; unfold guarded; by rewrite Hv. }
  apply verify_jwt_in_request_type in Hv as (b & _ & _ & _ & Hfresh & _).
  split; [done|]. split; [by rewrite Hdb1|].
  intros reqs req bearer Hreq Hjti.
  assert (Hrev : jti (raw_jwt bearer) ∈ revoked_tokens (serve reqs db1)).
  { apply serve_revoked. rewrite Hdb1, Hjti. simpl. set_solver. }
  assert (Hall : ∀ ty handler,
            ∃ r, guarded ty (Some bearer) handler (serve reqs db1)
                 = (serve reqs db1, r) ∧ rejected r).
  { intros ty handler.
    destruct (verify_jwt_in_request_revoked ty bearer _ Hrev) as (r & Hr & Hrej).
    exists r. unfold guarded. by rewrite Hr. }
  destruct req; simpl in Hreq; try done; subst; simpl; apply Hall.
Qed.

Lemma logout_revokes_witness :
  let db1 := (@dispatch toy_crypto (POST_logout (Some ada_token)) auth_db).1 in
  ("jti-1" ∉ revoked_tokens auth_db) ∧
  revoked_tokens db1 = ["jti-1"] ∧
  ∀ reqs req bearer,
    bearer_of req = Some bearer → jti (raw_jwt bearer) = "jti-1" →
    ∃ r, @dispatch toy_crypto req (@serve toy_crypto reqs db1)
         = (@serve toy_crypto reqs db1, r) ∧ rejected r.
Proof.
  exact (@logout_revokes toy_crypto Access (Some ada_token) auth_db
           (raw_jwt ada_token) (1, ada) eq_refl).
Defined.


(** * Further properties of the handlers *)

(** ** The listing *)

Lemma create_time_asc_trans : Transitive create_time_asc.
Proof. intros a b c. unfold create_time_asc. lia. Qed.

Lemma create_time_asc_total : Total create_time_asc.
Proof. intros a b. unfold create_time_asc. lia. Qed.

Lemma orders_by_create_time_rows (db : Db) (row : Z * Order) :
  row ∈ orders_by_create_time db ↔ orders db !! row.1 = Some row.2.
Proof.
  unfold orders_by_create_time.
  rewrite (merge_sort_Permutation create_time_asc). apply elem_of_map_to_list'.
Qed.

Lemma orders_by_create_time_NoDup (db : Db) : NoDup (orders_by_create_time db).
Proof.
  unfold orders_by_create_time.
  rewrite (merge_sort_Permutation create_time_asc). apply NoDup_map_to_list.
Qed.

Lemma orders_by_create_time_length (db : Db) :
  length (orders_by_create_time db) = size (orders db).
Proof.
  unfold orders_by_create_time.
  by rewrite (merge_sort_Permutation create_time_asc), length_map_to_list.
Qed.

Lemma orders_by_create_time_sorted (db : Db) :
  StronglySorted create_time_asc (orders_by_create_time db).
Proof.
  apply (@StronglySorted_merge_sort _ create_time_asc _
           create_time_asc_trans create_time_asc_total).
Qed.

Lemma StronglySorted_slice {A} (R : relation A) (l : list A) (m n : nat) :
  StronglySorted R l → StronglySorted R (take n (drop m l)).
Proof.
  intros Hl. rewrite <- (take_drop m l) in Hl.
  apply StronglySorted_app_1_r in Hl.
  rewrite <- (take_drop n (drop m l)) in Hl.
  by apply StronglySorted_app_1_l in Hl.
Qed.

Lemma slice_sublist {A} (l : list A) (m n : nat) :
  take n (drop m l) `sublist_of` l.
Proof. etrans; [apply sublist_take | apply sublist_drop]. Qed.

(** What the listing shows is a slice of the sorted table, whatever the
    arguments are. *)
Lemma listed_orders_list (page per_page : option Z) (db : Db) :
  ∃ m n, listed (orders_list page per_page db).2
         = take n (drop m (orders_by_create_time db)) ∧
         (0 ≤ args_get per_page 20 →
          (n ≤ Z.to_nat (args_get per_page 20))%nat).
Proof.
  unfold orders_list. destruct (page_count _ _) eqn:Hp; simpl.
  - unfold paginate_items. eexists _, _. split; [reflexivity|].
    intros Hpos. destruct (Z.ltb_spec (args_get per_page 20) 0); [lia|done].
  - exists 0%nat, 0%nat. split; [done|lia].
Qed.

(** X1. For a page number and a page size of at least 1, the listing
    shows at most [per_page] orders, each of them a row of the order
    table and none twice, with every order created no later than the
    ones after it. *)
Theorem orders_list_page (page per_page : Z) (db : Db) :
  1 ≤ page → 1 ≤ per_page →
  let rows := listed (orders_list (Some page) (Some per_page) db).2 in
  (Z.of_nat (length rows) ≤ per_page) ∧
  NoDup rows ∧
  StronglySorted create_time_asc rows ∧
  ∀ k o, (k, o) ∈ rows → orders db !! k = Some o.
Proof.
  intros Hpage Hper rows.
  destruct (listed_orders_list (Some page) (Some per_page) db)
    as (m & n & Hrows & Hn).
  subst rows. rewrite Hrows. simpl in Hn. repeat split.
  - pose proof (firstn_le_length n (drop m (orders_by_create_time db))). lia.
  - eapply sublist_NoDup;
      [apply orders_by_create_time_NoDup | apply slice_sublist].
  - apply StronglySorted_slice, orders_by_create_time_sorted.
  - intros k o Hin.
    apply (orders_by_create_time_rows db (k, o)).
    eapply elem_of_sublist; [exact Hin | apply slice_sublist].
Qed.

Lemma orders_list_page_witness :
  let rows := listed (orders_list (Some 1) (Some 1) panel_db).2 in
  (Z.of_nat (length rows) ≤ 1) ∧
  NoDup rows ∧
  StronglySorted create_time_asc rows ∧
  ∀ k o, (k, o) ∈ rows → orders panel_db !! k = Some o.
Proof. apply (orders_list_page 1 1 panel_db); lia. Defined.

Lemma orders_list_rows (page per_page : Z) (db : Db) :
  1 ≤ page → 1 ≤ per_page →
  orders_list (Some page) (Some per_page) db
  = (db, Render "order/orders_list.html"
           (OrdersContext
              (take (Z.to_nat per_page)
                    (drop (Z.to_nat ((page - 1) * per_page))
                          (orders_by_create_time db))))).
Proof.
  intros Hpage Hper. unfold orders_list, page_count, paginate_items. simpl.
  destruct (Z.eqb_spec per_page 0); [lia|].
  destruct (Z.ltb_spec page 1); [lia|].
  destruct (Z.ltb_spec per_page 0); [lia|]. done.
Qed.

(** The query of the handler gives one of the answers the database may
    give. *)
Lemma orders_by_create_time_ordered (db : Db) :
  ordered_by_create_time db (orders_by_create_time db).
Proof.
  split; [|apply orders_by_create_time_sorted].
  apply (merge_sort_Permutation create_time_asc).
Qed.

(** With distinct creation times the database has one answer only. *)
Lemma ordered_by_create_time_unique (db : Db) (rows : list (Z * Order)) :
  create_times_distinct db → ordered_by_create_time db rows →
  rows = orders_by_create_time db.
Proof.
  intros Hdist [Hperm Hsorted].
  destruct (orders_by_create_time_ordered db) as [Hperm' Hsorted'].
  apply (StronglySorted_unique_strong create_time_asc); [|done|done|].
  - intros [k1 o1] [k2 o2] H1 H2 Hle Hge.
    rewrite Hperm in H1. apply elem_of_map_to_list in H1.
    apply (orders_by_create_time_rows db (k2, o2)) in H2. simpl in H2.
    unfold create_time_asc in Hle, Hge. simpl in Hle, Hge.
    assert (k1 = k2) as -> by (apply (Hdist k1 k2 o1 o2); [done|done|lia]).
    congruence.
  - by rewrite Hperm, Hperm'.
Qed.

(** X2. When no two orders were created at the same time, then for a
    page size of at least 1 every order of the table is on some page of
    the listing: on the page the handler shows it on, and on that page
    for any answer the database may give to the ordered query. *)
Theorem orders_list_reaches_every_order (per_page : Z) (db : Db) (k : Z)
    (o : Order) :
  1 ≤ per_page → create_times_distinct db → orders db !! k = Some o →
  ∃ page, 1 ≤ page ∧
          (k, o) ∈ listed (orders_list (Some page) (Some per_page) db).2 ∧
          ∀ rows, ordered_by_create_time db rows →
                  (k, o) ∈ paginate_items rows page per_page.
Proof.
  intros Hper Hdist Hk.
  assert (Hin : (k, o) ∈ orders_by_create_time db)
    by by apply orders_by_create_time_rows.
  apply list_elem_of_lookup in Hin as [i Hi].
  pose proof (Z.div_pos (Z.of_nat i) per_page ltac:(lia) ltac:(lia)) as Hq.
  pose proof (Z.mul_div_le (Z.of_nat i) per_page ltac:(lia)) as Hle.
  pose proof (Z.mul_succ_div_gt (Z.of_nat i) per_page ltac:(lia)) as Hgt.
  exists (Z.of_nat i `div` per_page + 1). split; [lia|].
  assert (Hpage : (k, o) ∈ take (Z.to_nat per_page)
                    (drop (Z.to_nat ((Z.of_nat i `div` per_page + 1 - 1)
                                     * per_page))
                          (orders_by_create_time db))).
  { apply elem_of_take.
    exists (i - Z.to_nat ((Z.of_nat i `div` per_page + 1 - 1) * per_page))%nat.
    rewrite lookup_drop. split.
    - rewrite <- Hi. f_equal. nia.
    - nia. }
  split.
  - rewrite orders_list_rows by lia. exact Hpage.
  - intros rows Hrows.
    rewrite (ordered_by_create_time_unique db rows Hdist Hrows).
    unfold paginate_items.
    destruct (Z.ltb_spec (Z.of_nat i `div` per_page + 1) 1); [lia|].
    destruct (Z.ltb_spec per_page 0); [lia|]. exact Hpage.
Qed.

Lemma panel_db_create_times_distinct : create_times_distinct panel_db.
Proof.
  intros k1 k2 o1 o2 H1 H2 He. unfold panel_db in H1, H2; simpl in H1, H2.
  apply lookup_insert_Some in H1 as [[<- <-] | [_ H1]];
    apply lookup_insert_Some in H2 as [[<- <-] | [_ H2]]; try done.
  - apply lookup_insert_Some in H2 as [[<- <-] | [_ H2]]; [done|].
    by rewrite lookup_empty in H2.
  - apply lookup_insert_Some in H1 as [[<- <-] | [_ H1]]; [done|].
    by rewrite lookup_empty in H1.
  - apply lookup_insert_Some in H1 as [[<- <-] | [_ H1]];
      apply lookup_insert_Some in H2 as [[<- <-] | [_ H2]]; try done;
      by rewrite lookup_empty in *.
Qed.

Lemma orders_list_reaches_every_order_witness :
  ∃ page, 1 ≤ page ∧
          (1, mkOrder 7 "Unfulfiled" 5)
          ∈ listed (orders_list (Some page) (Some 1) panel_db).2 ∧
          ∀ rows, ordered_by_create_time panel_db rows →
                  (1, mkOrder 7 "Unfulfiled" 5) ∈ paginate_items rows page 1.
Proof.
  apply (orders_list_reaches_every_order 1 panel_db 1
           (mkOrder 7 "Unfulfiled" 5));
    [lia | apply panel_db_create_times_distinct | reflexivity].
Defined.

(** X3. A page past the last order is rendered as an empty listing; it
    is no error. *)
Theorem orders_list_past_the_end (page per_page : Z) (db : Db) :
  1 ≤ page → 1 ≤ per_page →
  Z.of_nat (size (orders db)) ≤ (page - 1) * per_page →
  orders_list (Some page) (Some per_page) db
  = (db, Render "order/orders_list.html" (OrdersContext [])).
Proof.
  intros Hpage Hper Hsize. rewrite orders_list_rows by lia.
  rewrite drop_ge; [by rewrite take_nil|].
  rewrite orders_by_create_time_length. lia.
Qed.

Lemma orders_list_past_the_end_witness :
  orders_list (Some 3) (Some 20) panel_db
  = (panel_db, Render "order/orders_list.html" (OrdersContext [])).
Proof.
  apply (orders_list_past_the_end 3 20 panel_db); [lia | lia |].
  vm_compute. discriminate.
Defined.

(** ** The toggle and the delete *)

(** X4. [confirm_order] writes to one row of the order table only: the
    other orders, the set of order ids, the users and the revoked tokens
    are as before, and the order keeps its owner and its creation
    time. *)
Theorem confirm_order_frame (order_id : Z) (db : Db) :
  let db' := (confirm_order order_id db).1 in
  users db' = users db ∧
  revoked_tokens db' = revoked_tokens db ∧
  dom (orders db') = dom (orders db) ∧
  (∀ k, k ≠ order_id → orders db' !! k = orders db !! k) ∧
  (user_id <$> orders db' !! order_id) = (user_id <$> orders db !! order_id) ∧
  (create_time <$> orders db' !! order_id)
  = (create_time <$> orders db !! order_id).
Proof.
  simpl. unfold confirm_order.
  destruct (orders db !! order_id) as [o|] eqn:Ho; simpl;
    [|by rewrite Ho].
  rewrite lookup_insert_eq. repeat split.
  - apply dom_insert_lookup_L. by rewrite Ho.
  - intros k Hk. by rewrite lookup_insert_ne.
  - simpl. by repeat case_decide.
  - simpl. by repeat case_decide.
Qed.

Lemma confirm_order_frame_witness :
  orders (confirm_order 1 panel_db).1 !! 2 = orders panel_db !! 2.
Proof.
  pose proof (confirm_order_frame 1 panel_db) as Hframe. cbv zeta in Hframe.
  destruct Hframe as (_ & _ & _ & Hothers & _). apply Hothers. lia.
Defined.

(** What a request can do to the order table: nothing, the toggle of one
    row, or the removal of one row. *)
Lemma dispatch_orders `{Crypto} (req : request) (db : Db) :
  orders (dispatch req db).1 = orders db ∨
  (∃ order_id o, orders db !! order_id = Some o ∧
     orders (dispatch req db).1 = <[order_id := toggled o]> (orders db)) ∨
  (∃ order_id, orders (dispatch req db).1 = delete order_id (orders db)).
Proof.
  destruct req as [data | data | header | header | header | header
                  | header data | page per_page | order_id | order_id
                  | order_id]; simpl.
  - left. apply RegistrationApi_post_tables.
  - left. by rewrite LoginApi_post_store.
  - left. unfold guarded. by repeat case_match.
  - left. unfold guarded. by repeat case_match.
  - left. unfold guarded. by repeat case_match.
  - left. unfold guarded. by repeat case_match.
  - left. unfold guarded. case_match; [done|]. case_match.
    apply ProfileApi_put_tables.
  - left. by rewrite orders_list_store.
  - left. by rewrite orders_info_store.
  - destruct (orders db !! order_id) as [o|] eqn:Ho.
    + right; left. exists order_id, o.
      by rewrite (confirm_order_found _ _ _ Ho).
    + left. by rewrite (confirm_order_missing _ _ Ho).
  - unfold order_delete.
    destruct (orders db !! order_id) as [o|] eqn:Ho; simpl; eauto.
Qed.

Lemma toggled_status_known (o : Order) :
  status o = "Fulfiled" ∨ status o = "Unfulfiled" →
  status (toggled o) = "Fulfiled" ∨ status (toggled o) = "Unfulfiled".
Proof.
  intros Hknown. unfold toggled. repeat case_decide; simpl; auto.
Qed.

(** X5. When every order carries one of the two status strings, it stays
    so after any sequence of requests: the toggle writes no other
    string, and no other route writes a status. *)
Theorem statuses_known_kept `{Crypto} (reqs : list request) (db : Db) :
  statuses_known db → statuses_known (serve reqs db).
Proof.
  revert db. induction reqs as [|req reqs IH]; intros db Hknown; [done|].
  simpl. apply IH. intros k o.
  destruct (dispatch_orders req db)
    as [-> | [(order_id & o0 & Ho0 & ->) | (order_id & ->)]].
  - apply Hknown.
  - intros [[-> <-] | [_ Hk]]%lookup_insert_Some.
    + apply toggled_status_known. by apply (Hknown k).
    + by apply (Hknown k).
  - intros [_ Hk]%lookup_delete_Some. by apply (Hknown k).
Qed.

Lemma statuses_known_kept_witness :
  statuses_known
    (@serve toy_crypto [GET_confirm_order 1; GET_order_delete 2] one_order_db).
Proof.
  apply (@statuses_known_kept toy_crypto).
  intros k o Hk. unfold one_order_db in Hk; simpl in Hk.
  apply lookup_insert_Some in Hk as [[_ <-] | [_ Hk]]; [by right|].
  by rewrite lookup_empty in Hk.
Defined.

(** X6. [order_delete] of an order that is there removes that one row
    and nothing else: the table is one row shorter, every other order,
    every user (the owner too) and the revoked tokens are as before, and
    a second delete of the same id aborts with 404 and leaves the store
    alone. *)
Theorem order_delete_frame (order_id : Z) (db : Db) (o : Order) :
  orders db !! order_id = Some o →
  let db' := (order_delete order_id db).1 in
  S (size (orders db')) = size (orders db) ∧
  orders db' !! order_id = None ∧
  (∀ k, k ≠ order_id → orders db' !! k = orders db !! k) ∧
  users db' = users db ∧
  revoked_tokens db' = revoked_tokens db ∧
  order_delete order_id db' = (db', Abort 404).
Proof.
  intros Ho.
  assert (Hdel : order_delete order_id db
                 = (set_orders db (delete order_id (orders db)),
                    Redirect "ecommerce_panel.orders_list")).
  { unfold order_delete. by rewrite Ho. }
  simpl. rewrite Hdel. simpl. repeat split.
  - rewrite map_size_delete, Ho. simpl.
    assert (size (orders db) ≠ 0%nat); [|lia].
    intros Hz%map_size_empty_inv. by rewrite Hz, lookup_empty in Ho.
  - apply lookup_delete_eq.
  - intros k Hk. by rewrite lookup_delete_ne.
  - unfold order_delete. simpl. by rewrite lookup_delete_eq.
Qed.

Lemma order_delete_frame_witness :
  let db' := (order_delete 1 panel_db).1 in
  S (size (orders db')) = size (orders panel_db) ∧
  orders db' !! 1 = None ∧
  (∀ k, k ≠ 1 → orders db' !! k = orders panel_db !! k) ∧
  users db' = users panel_db ∧
  revoked_tokens db' = revoked_tokens panel_db ∧
  order_delete 1 db' = (db', Abort 404).
Proof.
  apply (order_delete_frame 1 panel_db (mkOrder 7 "Unfulfiled" 5)).
  reflexivity.
Defined.

Lemma listed_rows (page per_page : option Z) (db : Db) (k : Z) (o : Order) :
  (k, o) ∈ listed (orders_list page per_page db).2 → orders db !! k = Some o.
Proof.
  destruct (listed_orders_list page per_page db) as (m & n & -> & _).
  intros Hin. apply (orders_by_create_time_rows db (k, o)).
  eapply elem_of_sublist; [exact Hin | apply slice_sublist].
Qed.

(** X7. After [order_delete] for an order id, and after any further
    requests, no page of the listing shows an order with that id,
    whatever the paging arguments are. *)
Theorem order_delete_then_orders_list `{Crypto} (order_id : Z) (db : Db)
    (reqs : list request) (page per_page : option Z) (o : Order) :
  (order_id, o)
  ∉ listed (orders_list page per_page
                        (serve reqs (order_delete order_id db).1)).2.
Proof.
  intros Hin%listed_rows.
  by rewrite (serve_order_missing reqs _ _ (order_delete_missing order_id db))
    in Hin.
Qed.

(** X8. After the toggle, the detail view of the order shows the same
    owner and the order with its status flipped. *)
Theorem confirm_order_then_orders_info (order_id : Z) (db : Db) (o : Order)
    (u : User) :
  orders db !! order_id = Some o → users db !! user_id o = Some u →
  let db' := (confirm_order order_id db).1 in
  ∃ o', orders_info order_id db'
        = (db', Render "order/orders_info.html"
                  (OrderInfoContext (order_id, o') (user_id o, u))) ∧
        create_time o' = create_time o ∧
        (status o = "Unfulfiled" → status o' = "Fulfiled") ∧
        (status o = "Fulfiled" → status o' = "Unfulfiled") ∧
        (status o ≠ "Unfulfiled" → status o ≠ "Fulfiled" →
         status o' = status o).
Proof.
  intros Ho Hu. simpl. rewrite (confirm_order_found _ _ _ Ho). simpl.
  exists (toggled o). unfold orders_info. simpl. rewrite lookup_insert_eq.
  assert (Huid : user_id (toggled o) = user_id o)
    by (unfold toggled; by repeat case_decide).
  rewrite Huid, Hu. split; [done|].
  unfold toggled. repeat case_decide; simpl; repeat split; congruence.
Qed.

Lemma confirm_order_then_orders_info_witness :
  let db' := (confirm_order 1 one_order_db).1 in
  ∃ o', orders_info 1 db'
        = (db', Render "order/orders_info.html"
                  (OrderInfoContext (1, o') (7, ada))) ∧
        create_time o' = 5 ∧
        ("Unfulfiled" = "Unfulfiled" → status o' = "Fulfiled") ∧
        ("Unfulfiled" = "Fulfiled" → status o' = "Unfulfiled") ∧
        ("Unfulfiled" ≠ "Unfulfiled" → "Unfulfiled" ≠ "Fulfiled" →
         status o' = "Unfulfiled").
Proof.
  apply (confirm_order_then_orders_info 1 one_order_db
           (mkOrder 7 "Unfulfiled" 5) ada); reflexivity.
Defined.

(** ** Registration and login, continued *)

(** X9. A registration that carries both fields, with an email no stored
    user has, adds one row under a key that was free: the row holds the
    email, the names of the body ([None] for a name that is absent) and
    the hash of the password.  Every other row and table is as before,
    and the answer is the success message with an access and a refresh
    token issued for the email. *)
Theorem register_success `{Crypto} (d : dict) (db : Db) (password e : json) :
  d !! "password" = Some password → d !! "email" = Some e →
  (∀ k u, users db !! k = Some u → email u ≠ e) →
  ∃ k u,
    RegistrationApi_post (Some d) db
    = (set_users db (<[k := u]> (users db)),
       Json [("message", JStr "Successfully registered");
             ("access_token", JStr (create_access_token e));
             ("refresh_token", JStr (create_refresh_token e))] 200) ∧
    users db !! k = None ∧
    email u = e ∧
    first_name u = dict_get d "first_name" ∧
    last_name u = dict_get d "last_name" ∧
    password_hash u = generate_password_hash password.
Proof.
  intros Hp He Hnone.
  rewrite (RegistrationApi_post_checked _ _ _ _ Hp He).
  apply filter_by_email_nil in Hnone. rewrite Hnone. simpl.
  exists (fresh (dom (users db))),
         (new_User password e (dict_get d "first_name")
                   (dict_get d "last_name")).
  repeat split. apply not_elem_of_dom, is_fresh.
Qed.

Lemma register_success_witness :
  ∃ k u,
    @RegistrationApi_post toy_crypto
      (Some (credentials "eve@example.org" "apple")) auth_db
    = (set_users auth_db (<[k := u]> (users auth_db)),
       Json [("message", JStr "Successfully registered");
             ("access_token", JStr "access-token");
             ("refresh_token", JStr "refresh-token")] 200) ∧
    users auth_db !! k = None ∧
    email u = JStr "eve@example.org" ∧
    first_name u = JNull ∧
    last_name u = JNull ∧
    password_hash u = "hash:apple".
Proof.
  apply (@register_success toy_crypto (credentials "eve@example.org" "apple")
           auth_db (JStr "apple") (JStr "eve@example.org"));
    [reflexivity | reflexivity |].
  intros k u Hk. unfold auth_db in Hk; simpl in Hk.
  apply lookup_insert_Some in Hk as [[_ <-] | [_ Hk]]; [discriminate|].
  apply lookup_insert_Some in Hk as [[_ <-] | [_ Hk]]; [discriminate|].
  by rewrite lookup_empty in Hk.
Defined.

Lemma LoginApi_post_one (d : dict) `{Crypto} (db : Db) (password e : json)
    (k : Z) (u : User) :
  d !! "email" = Some e → d !! "password" = Some password →
  filter_by_email e db = [(k, u)] →
  check_password u password = true →
  LoginApi_post (Some d) db
  = (db, Json ([("message", JStr "Successfully logined");
                ("access_token", JStr (create_access_token (email u)));
                ("refresh_token", JStr (create_refresh_token (email u)))]
               ++ match access_dict u with
                  | Some access => [("access", access)]
                  | None => []
                  end) 200).
Proof.
  intros He Hp Hrows Hcheck. unfold LoginApi_post.
  assert (check_data (Some d) ["email"; "password"] = true) as ->.
  { apply check_data_required. exists d. by rewrite Hp, He. }
  simpl. rewrite Hp, He, Hrows. simpl. rewrite Hcheck.
  unfold email_of. by destruct (access_dict u).
Qed.

(** X10. A login that carries both fields, with the email of exactly one
    stored user whose password check passes, is answered with the
    success message and an access and a refresh token issued for that
    user's email, followed by the Access object when the user has one;
    the store is left as it was. *)
Theorem login_success `{Crypto} (d : dict) (db : Db) (password e : json)
    (k : Z) (u : User) :
  d !! "email" = Some e → d !! "password" = Some password →
  users db !! k = Some u → email u = e →
  (∀ k' u', users db !! k' = Some u' → email u' = e → k' = k) →
  check_password u password = true →
  LoginApi_post (Some d) db
  = (db, Json ([("message", JStr "Successfully logined");
                ("access_token", JStr (create_access_token e));
                ("refresh_token", JStr (create_refresh_token e))]
               ++ match access_dict u with
                  | Some access => [("access", access)]
                  | None => []
                  end) 200).
Proof.
  intros He Hp Hk Hu Huniq Hcheck.
  rewrite (LoginApi_post_one d db password e k u He Hp); [by rewrite Hu| |done].
  by apply filter_by_email_unique.
Qed.

Lemma auth_db_users (k : Z) (u : User) :
  users auth_db !! k = Some u → (k = 1 ∧ u = ada) ∨ (k = 2 ∧ u = bob).
Proof.
  unfold auth_db; simpl.
  intros [[<- <-] | [_ Hk]]%lookup_insert_Some; [by left|].
  apply lookup_insert_Some in Hk as [[<- <-] | [_ Hk]]; [by right|].
  by rewrite lookup_empty in Hk.
Qed.

Lemma login_success_witness :
  @LoginApi_post toy_crypto (Some (credentials "bob@example.org" "builder"))
                 auth_db
  = (auth_db,
     Json ([("message", JStr "Successfully logined");
            ("access_token", JStr "access-token");
            ("refresh_token", JStr "refresh-token")]
           ++ [("access", JObj [("group", JNull); ("is_admin", JBool false);
                                ("is_staff", JBool true)])]) 200).
Proof.
  apply (@login_success toy_crypto (credentials "bob@example.org" "builder")
           auth_db (JStr "builder") (JStr "bob@example.org") 2 bob);
    try reflexivity.
  intros k' u' [[_ ->] | [-> _]]%auth_db_users; [discriminate | done].
Defined.

(** X11. With a hash that accepts the password it was made from, a
    registration that went through can log in at once: the same body
    sent to the login is answered with the success message and tokens
    for its email. *)
Theorem register_then_login `{Crypto} (data : option dict) (db db' : Db)
    (body : list (string * json)) :
  (∀ p, check_password_hash (generate_password_hash p) p = true) →
  RegistrationApi_post data db = (db', Json body 200) →
  ∃ d e extra,
    data = Some d ∧ d !! "email" = Some e ∧
    LoginApi_post data db'
    = (db', Json ([("message", JStr "Successfully logined");
                   ("access_token", JStr (create_access_token e));
                   ("refresh_token", JStr (create_refresh_token e))]
                  ++ extra) 200).
Proof.
  intros Hhash Hpost.
  apply RegistrationApi_post_success
    in Hpost as (d & password & e & k & -> & Hp & He & Hnone & Hk & Husers).
  exists d, e. eexists. split; [done|]. split; [done|].
  apply (LoginApi_post_one d db' password e k
           (new_User password e (dict_get d "first_name")
                     (dict_get d "last_name")) He Hp).
  - apply filter_by_email_unique.
    + rewrite Husers. apply lookup_insert_eq.
    + done.
    + intros k' u'. rewrite Husers.
      intros [[<- _] | [_ Hk']]%lookup_insert_Some He'; [done|].
      by destruct (Hnone k' u').
  - apply Hhash.
Qed.

Lemma toy_crypto_accepts (p : json) :
  @check_password_hash toy_crypto (@generate_password_hash toy_crypto p) p
  = true.
Proof. by apply bool_decide_eq_true_2. Qed.

Lemma register_then_login_witness :
  let eve := Some (credentials "eve@example.org" "apple") in
  let db' := (@RegistrationApi_post toy_crypto eve auth_db).1 in
  ∃ d e extra,
    eve = Some d ∧ d !! "email" = Some e ∧
    @LoginApi_post toy_crypto eve db'
    = (db', Json ([("message", JStr "Successfully logined");
                   ("access_token", JStr "access-token");
                   ("refresh_token", JStr "refresh-token")]
                  ++ extra) 200).
Proof.
  apply (@register_then_login toy_crypto
           (Some (credentials "eve@example.org" "apple")) auth_db _
           [("message", JStr "Successfully registered");
            ("access_token", JStr "access-token");
            ("refresh_token", JStr "refresh-token")]).
  - apply toy_crypto_accepts.
  - vm_compute. reflexivity.
Defined.

(** ** Profile update, continued *)

(** X12. Once a profile update has given the current user the email of
    another stored user, every login with that email raises
    [MultipleResultsFound], whatever password it carries: neither of the
    two users can log in. *)
Theorem profile_email_clash_breaks_login `{Crypto} (uid k : Z) (cu u : User)
    (d body : dict) (db : Db) (e password : json) :
  users db !! uid = Some cu → users db !! k = Some u → k ≠ uid →
  email u = e → d !! "email" = Some e → truthy e = true →
  body !! "email" = Some e → body !! "password" = Some password →
  let db' := (ProfileApi_put (uid, cu) (Some d) db).1 in
  LoginApi_post (Some body) db' = (db', Raise "MultipleResultsFound").
Proof.
  intros Hcu Hk Hne Hu Hd Ht Hbe Hbp db'. subst db'.
  apply (login_shared_email_raises body _ password e uid k (updated d cu) u);
    try done.
  - simpl. apply lookup_insert_eq.
  - simpl. by rewrite lookup_insert_ne.
  - pose proof (updated_fields d cu) as (_ & _ & Hem & _).
    rewrite Hem. unfold dict_get. rewrite Hd. simpl. by rewrite Ht.
Qed.

Lemma profile_email_clash_breaks_login_witness :
  let db' := (@ProfileApi_put toy_crypto (1, ada)
                (Some (new_email "bob@example.org")) auth_db).1 in
  @LoginApi_post toy_crypto (Some (credentials "bob@example.org" "builder")) db'
  = (db', Raise "MultipleResultsFound").
Proof.
  apply (@profile_email_clash_breaks_login toy_crypto 1 2 ada bob
           (new_email "bob@example.org")
           (credentials "bob@example.org" "builder") auth_db
           (JStr "bob@example.org") (JStr "builder"));
    reflexivity || lia.
Defined.

(** X13. A profile update cannot blank a column: a first name, last name
    or email that is truthy before the update is truthy after it,
    whatever the body holds. *)
Theorem ProfileApi_put_never_blanks `{Crypto} (uid : Z) (cu : User)
    (data : option dict) (db : Db) :
  users db !! uid = Some cu →
  ∃ cu', users (ProfileApi_put (uid, cu) data db).1 !! uid = Some cu' ∧
         (truthy (first_name cu) = true → truthy (first_name cu') = true) ∧
         (truthy (last_name cu) = true → truthy (last_name cu') = true) ∧
         (truthy (email cu) = true → truthy (email cu') = true).
Proof.
  intros Hcu. exists (updated (default ∅ data) cu).
  rewrite (ProfileApi_put_users _ _ _ _ Hcu), lookup_insert_eq.
  pose proof (updated_fields (default ∅ data) cu) as (Hf & Hl & He & _).
  cbv zeta in Hf, Hl, He. rewrite Hf, Hl, He. split; [done|].
  repeat split; intros Hold.
  - by destruct (truthy (dict_get _ "first_name")) eqn:Hnew.
  - by destruct (truthy (dict_get _ "last_name")) eqn:Hnew.
  - by destruct (truthy (dict_get _ "email")) eqn:Hnew.
Qed.

Lemma ProfileApi_put_never_blanks_witness :
  ∃ cu', users (@ProfileApi_put toy_crypto (1, ada)
                  (Some (<["first_name" := JStr ""]> {["email" := JNull]}))
                  auth_db).1 !! 1 = Some cu' ∧
         (truthy (first_name ada) = true → truthy (first_name cu') = true) ∧
         (truthy (last_name ada) = true → truthy (last_name cu') = true) ∧
         (truthy (email ada) = true → truthy (email cu') = true).
Proof.
  apply (@ProfileApi_put_never_blanks toy_crypto 1 ada
           (Some (<["first_name" := JStr ""]> {["email" := JNull]})) auth_db).
  reflexivity.
Defined.

Lemma updated_twice `{Crypto} (d : dict) (u : User) :
  truthy (dict_get d "password") = false →
  updated d (updated d u) = updated d u.
Proof.
  intros Hpw. destruct u. unfold updated, put_fields, put_field. simpl.
  rewrite Hpw.
  destruct (truthy (dict_get d "first_name"));
    destruct (truthy (dict_get d "last_name"));
    destruct (truthy (dict_get d "email")); done.
Qed.

(** X14. A profile update whose body holds no truthy password is
    idempotent: sent again on the row it produced, it gives the same
    store and the same answer. *)
Theorem ProfileApi_put_again `{Crypto} (uid : Z) (cu : User) (d : dict)
    (db : Db) :
  truthy (dict_get d "password") = false →
  ∃ cu', users (ProfileApi_put (uid, cu) (Some d) db).1 !! uid = Some cu' ∧
         ProfileApi_put (uid, cu') (Some d)
                        (ProfileApi_put (uid, cu) (Some d) db).1
         = ProfileApi_put (uid, cu) (Some d) db.
Proof.
  intros Hpw. exists (updated d cu). simpl. rewrite lookup_insert_eq.
  split; [done|].
  unfold ProfileApi_put. simpl. rewrite (updated_twice d cu Hpw).
  unfold set_users. simpl. by rewrite insert_insert_eq.
Qed.

Lemma ProfileApi_put_again_witness :
  let d : dict := <["first_name" := JStr "Augusta"]> {["password" := JStr ""]} in
  ∃ cu', users (@ProfileApi_put toy_crypto (1, ada) (Some d) auth_db).1 !! 1
         = Some cu' ∧
         @ProfileApi_put toy_crypto (1, cu') (Some d)
           (@ProfileApi_put toy_crypto (1, ada) (Some d) auth_db).1
         = @ProfileApi_put toy_crypto (1, ada) (Some d) auth_db.
Proof.
  exact (@ProfileApi_put_again toy_crypto 1 ada
           (<["first_name" := JStr "Augusta"]> {["password" := JStr ""]})
           auth_db eq_refl).
Defined.

(** ** Logout, continued *)

(** X15. The two logout handlers record the [jti] of the presented token
    and nothing else: the revocation of every other [jti], the users and
    the orders are as before. *)
Theorem logout_records_one_jti (raw : RawJwt) (db : Db) :
  let db1 := (LogoutApi_post raw db).1 in
  let db2 := (LogoutRefreshApi_post raw db).1 in
  db2 = db1 ∧
  is_jti_blacklisted (jti raw) db1 = true ∧
  (∀ j, j ≠ jti raw → is_jti_blacklisted j db1 = is_jti_blacklisted j db) ∧
  users db1 = users db ∧ orders db1 = orders db.
Proof.
  simpl. unfold is_jti_blacklisted. simpl. repeat split.
  - apply bool_decide_eq_true_2. set_solver.
  - intros j Hj. apply bool_decide_ext.
    rewrite elem_of_app, list_elem_of_singleton. tauto.
Qed.

Lemma logout_records_one_jti_witness :
  is_jti_blacklisted "jti-2" (LogoutApi_post (raw_jwt ada_token) auth_db).1
  = is_jti_blacklisted "jti-2" auth_db.
Proof.
  pose proof (logout_records_one_jti (raw_jwt ada_token) auth_db) as Hlogout.
  cbv zeta in Hlogout. destruct Hlogout as (_ & _ & Hothers & _).
  apply Hothers. discriminate.
Defined.

(** ** What the routes keep *)

(** X16. Login, token refresh, profile read, the listing and the detail
    view never write: whatever the request holds and however it ends,
    the store after it is the store before it. *)
Theorem read_routes_keep_store `{Crypto} (req : request) (db : Db) :
  reads_only req = true → (dispatch req db).1 = db.
Proof.
  destruct req; simpl; try done; intros _.
  - apply LoginApi_post_store.
  - unfold guarded. by repeat case_match.
  - unfold guarded. by repeat case_match.
  - apply orders_list_store.
  - apply orders_info_store.
Qed.

Lemma read_routes_keep_store_witness :
  (@dispatch toy_crypto
     (POST_login (Some (credentials "ada@example.org" "lovelace"))) auth_db).1
  = auth_db.
Proof. apply (@read_routes_keep_store toy_crypto). reflexivity. Defined.

(** What a request can do to the user table: nothing, a new row under a
    free key with an email no row has, or the update of the row of the
    current user. *)
Lemma dispatch_users `{Crypto} (req : request) (db : Db) :
  users (dispatch req db).1 = users db ∨
  (∃ k u, users db !! k = None ∧
          (∀ k' u', users db !! k' = Some u' → email u' ≠ email u) ∧
          users (dispatch req db).1 = <[k := u]> (users db)) ∨
  (∃ k cu d, is_profile_update req = true ∧ users db !! k = Some cu ∧
             users (dispatch req db).1 = <[k := updated d cu]> (users db)).
Proof.
  destruct req as [data | data | header | header | header | header
                  | header data | page per_page | order_id | order_id
                  | order_id]; simpl.
  - destruct (RegistrationApi_post_cases data db) as [-> | [body Hpost]];
      [by left|].
    apply RegistrationApi_post_success
      in Hpost as (d & password & e & k & _ & _ & _ & Hnone & Hk & Husers).
    right; left. eexists k, _. split; [done|]. split; [|exact Husers].
    done.
  - left. by rewrite LoginApi_post_store.
  - left. unfold guarded. by repeat case_match.
  - left. unfold guarded. by repeat case_match.
  - left. unfold guarded. by repeat case_match.
  - left. unfold guarded. by repeat case_match.
  - unfold guarded.
    destruct (verify_jwt_in_request Access header db)
      as [failure | [raw [k cu]]] eqn:Hv; [by left|].
    apply verify_jwt_in_request_type in Hv as (_ & _ & _ & _ & _ & Hcu).
    simpl in Hcu. destruct data as [d|]; [|by left].
    right; right. by exists k, cu, d.
  - left. by rewrite orders_list_store.
  - left. by rewrite orders_info_store.
  - left. unfold confirm_order. by case_match.
  - left. unfold order_delete. by case_match.
Qed.

(** X17. No sequence of requests removes a user row or changes what it
    says about access: a stored user is still stored afterwards, with the
    same [is_admin], [is_staff] and [group]. *)
Theorem users_kept `{Crypto} (reqs : list request) (db : Db) (k : Z)
    (u : User) :
  users db !! k = Some u →
  ∃ u', users (serve reqs db) !! k = Some u' ∧
        is_admin u' = is_admin u ∧ is_staff u' = is_staff u ∧
        group u' = group u.
Proof.
  revert db u. induction reqs as [|req reqs IH]; intros db u Hk; [by eauto|].
  simpl.
  assert (Hstep : ∃ u1, users (dispatch req db).1 !! k = Some u1 ∧
                        is_admin u1 = is_admin u ∧ is_staff u1 = is_staff u ∧
                        group u1 = group u).
  { destruct (dispatch_users req db)
      as [-> | [(k0 & u0 & Hk0 & _ & ->) | (k0 & cu & d & _ & Hcu & ->)]].
    - by eauto.
    - exists u. rewrite lookup_insert_ne; [done|]. congruence.
    - destruct (decide (k0 = k)) as [->|Hne].
      + exists (updated d cu). rewrite lookup_insert_eq.
        pose proof (updated_fields d cu) as (_ & _ & _ & _ & Ha & Hs & Hg).
        assert (cu = u) as -> by congruence. done.
      + exists u. by rewrite lookup_insert_ne. }
  destruct Hstep as (u1 & Hk1 & Ha1 & Hs1 & Hg1).
  destruct (IH _ _ Hk1) as (u' & Hk' & Ha & Hs & Hg).
  exists u'. split; [done|]. repeat split; congruence.
Qed.

Lemma users_kept_witness :
  ∃ u', users (@serve toy_crypto
                 [PUT_profile (Some ada_token)
                              (Some (new_email "bob@example.org"));
                  POST_register (Some (credentials "eve@example.org" "apple"))]
                 auth_db) !! 2 = Some u' ∧
        is_admin u' = false ∧ is_staff u' = true ∧ group u' = JNull.
Proof.
  apply (@users_kept toy_crypto _ auth_db 2 bob). reflexivity.
Defined.

(** X18. Apart from the profile update, no route lets two users share an
    email: when the emails of the user table are distinct, they are still
    distinct after any sequence of requests without a profile update. *)
Theorem emails_unique_kept `{Crypto} (reqs : list request) (db : Db) :
  Forall (λ req, is_profile_update req = false) reqs →
  emails_unique db → emails_unique (serve reqs db).
Proof.
  revert db. induction reqs as [|req reqs IH]; intros db Hreqs Huniq; [done|].
  apply Forall_cons in Hreqs as [Hreq Hreqs].
  simpl. apply IH; [done|]. unfold emails_unique.
  destruct (dispatch_users req db)
    as [-> | [(k0 & u0 & Hk0 & Hnew & ->) | (k0 & cu & d & Hput & _)]].
  - done.
  - intros k1 k2 u1 u2 H1 H2 He.
    apply lookup_insert_Some in H1 as [[<- <-]|[? H1]];
      apply lookup_insert_Some in H2 as [[<- <-]|[? H2]]; try done.
    + by destruct (Hnew _ _ H2).
    + by destruct (Hnew _ _ H1).
    + eauto.
  - congruence.
Qed.

Lemma emails_unique_kept_witness :
  emails_unique
    (@serve toy_crypto
       [POST_register (Some (credentials "bob@example.org" "apple"));
        POST_register (Some (credentials "eve@example.org" "apple"));
        GET_order_delete 1]
       auth_db).
Proof.
  apply (@emails_unique_kept toy_crypto).
  - repeat constructor.
  - apply auth_db_emails_unique.
Defined.
